(** * vault-manager: the reconciliation modules, embedded and verified

    A shallow embedding of the three modules of [vaultmanager/modules]:
    - [VaultManagerPolicies.py]  (module [Policies] below),
    - [VaultManagerAuth.py]      (module [Auth]),
    - [VaultManagerKV.py]        (module [KV]).

    Python code is written in a small state-and-exception monad.  The
    state carries the outside world (the Vault servers and the local file
    system, both behind an abstract interface), the ordered trace of the
    calls made on that world, and the log records at WARNING level and
    above.  The Vault client library ([lib/VaultClient.py]), the auth
    method class ([lib/VaultAuthMethod.py]), the method specific
    configurators and [lib/utils.py] are not part of the verified sources:
    the client and the operating system are parameters of the
    development, the others are modelled where they are needed. *)

From Stdlib Require Import List String Ascii HexString Bool Arith ZArith Lia.
From Stdlib Require Import NArith Permutation.
Import ListNotations.
Open Scope string_scope.

Set Implicit Arguments.

(** ** Python strings *)

Module PyStr.

(** [s.split(sep)] for a one character separator: the result is never
    empty, and two adjacent separators delimit an empty segment. *)
Fixpoint split (sep : ascii) (s : string) : list string :=
  match s with
  | EmptyString => [EmptyString]
  | String c r =>
      if Ascii.eqb c sep then EmptyString :: split sep r
      else match split sep r with
           | [] => [String c EmptyString]
           | h :: t => String c h :: t
           end
  end.

(** [sep in s] for a one character [sep]. *)
Fixpoint has_char (sep : ascii) (s : string) : bool :=
  match s with
  | EmptyString => false
  | String c r => Ascii.eqb c sep || has_char sep r
  end.

(** [x in l] on a list of strings. *)
Definition mem (x : string) (l : list string) : bool :=
  existsb (String.eqb x) l.

Definition underscore : ascii := "_"%char.
Definition slash : ascii := "/"%char.
Definition dot : ascii := "."%char.

End PyStr.

(** ** The policy name codec

    The remote name of a local policy is built in [policies_push]
    (line 114) and taken apart in [policies_pull] (lines 79-80). *)

Module Codec.

(** [prefix + "_" + name + "_policy"] *)
Definition encode (category name : string) : string :=
  category ++ "_" ++ name ++ "_policy".

(** [splitted = policy.split("_")], then the guard
    [len(splitted) != 3 or splitted[2] != "policy"]: a name passing the
    guard yields [(splitted[0], splitted[1])]. *)
Definition decode (policy : string) : option (string * string) :=
  match PyStr.split PyStr.underscore policy with
  | [c; n; p] => if String.eqb p "policy" then Some (c, n) else None
  | _ => None
  end.

Definition decodes (policy : string) : bool :=
  match decode policy with Some _ => true | None => false end.

End Codec.

(** ** Python values, exceptions and the execution monad *)

(** The values a parsed command line argument can take: [None] (option
    not given), a boolean (a [store_true] flag) or a string. *)
Inductive pyval : Type :=
| PNone
| PBool (b : bool)
| PStr (s : string).

(** Scalars of the YAML configuration and of the tuning mappings. *)
Inductive scalar : Type :=
| SNull
| SBool (b : bool)
| SInt (z : Z)
| SStr (s : string).

Inductive exn : Type :=
| TypeError (msg : string)
| ValueError (msg : string) (items : list string)
| KeyError (key : string)
| IndexError
| FileNotFoundError (path : string).

Inductive res (A : Type) : Type :=
| Ok (a : A)
| Raise (e : exn).
Arguments Ok {A} a.
Arguments Raise {A} e.

(** What a [run] method hands back: it either falls off its end
    (returning [None]) or executes [return False]. *)
Inductive retval : Type :=
| RetNone
| RetFalse.

Module Py.

(** Truth value testing. *)
Definition truthy (v : pyval) : bool :=
  match v with
  | PNone => false
  | PBool b => b
  | PStr s => negb (String.eqb s "")
  end.

Definition truthy_scalar (v : scalar) : bool :=
  match v with
  | SNull => false
  | SBool b => b
  | SInt z => negb (Z.eqb z 0)
  | SStr s => negb (String.eqb s "")
  end.

(** [a == b] on argument values. *)
Definition eqb (a b : pyval) : bool :=
  match a, b with
  | PNone, PNone => true
  | PBool x, PBool y => Bool.eqb x y
  | PStr x, PStr y => String.eqb x y
  | _, _ => false
  end.

(** [v in l] *)
Definition mem (v : pyval) (l : list pyval) : bool := existsb (eqb v) l.

(** [l.count(v)] *)
Definition count (v : pyval) (l : list pyval) : nat :=
  List.length (filter (fun x => eqb x v) l).

(** The builtin [all], called with the positional arguments [args].  It
    takes exactly one argument, which must be iterable; of the values at
    hand only a string is, and its items (one character strings) are all
    true. *)
Definition all (args : list pyval) : res bool :=
  match args with
  | [PStr _] => Ok true
  | [PNone] => Raise (TypeError "'NoneType' object is not iterable")
  | [PBool _] => Raise (TypeError "'bool' object is not iterable")
  | _ => Raise (TypeError "all() takes exactly one argument")
  end.

(** The builtin [any], under the same calling convention. *)
Definition any (args : list pyval) : res bool :=
  match args with
  | [PStr s] => Ok (negb (String.eqb s ""))
  | [PNone] => Raise (TypeError "'NoneType' object is not iterable")
  | [PBool _] => Raise (TypeError "'bool' object is not iterable")
  | _ => Raise (TypeError "any() takes exactly one argument")
  end.

(** A dict with string keys, in insertion order. *)
Definition dict (V : Type) : Type := list (string * V).

Fixpoint dict_get {V} (k : string) (d : dict V) : option V :=
  match d with
  | [] => None
  | (k', v) :: r => if String.eqb k k' then Some v else dict_get k r
  end.

(** [d[k] = v]: an existing key keeps its position. *)
Fixpoint dict_set {V} (k : string) (v : V) (d : dict V) : dict V :=
  match d with
  | [] => [(k, v)]
  | (k', v') :: r =>
      if String.eqb k k' then (k', v) :: r else (k', v') :: dict_set k v r
  end.

Definition dict_keys {V} (d : dict V) : list string := map fst d.

(** [sorted(d.items())]: the keys of a dict are distinct, so the order of
    the pairs is the order of their keys. *)
Fixpoint insert_item {V} (kv : string * V) (l : list (string * V))
  : list (string * V) :=
  match l with
  | [] => [kv]
  | h :: t => if String.leb (fst kv) (fst h) then kv :: h :: t
              else h :: insert_item kv t
  end.

Definition sorted_items {V} (d : dict V) : list (string * V) :=
  fold_right insert_item [] d.

(** The dict a loop of assignments [d[k] = f(k)] builds. *)
Definition filled {V} (f : string -> V) (l : list string) (d : dict V)
  : dict V :=
  fold_left (fun d k => dict_set k (f k) d) l d.

(** [s.replace(a, b)] for one character [a] and [b]. *)
Fixpoint replace_char (a b : ascii) (s : string) : string :=
  match s with
  | EmptyString => EmptyString
  | String c r =>
      String (if Ascii.eqb c a then b else c) (replace_char a b r)
  end.

End Py.

(** ** [os.path] on POSIX *)

Module OsPath.

Definition starts_with_sep (s : string) : bool :=
  match s with
  | String c _ => Ascii.eqb c PyStr.slash
  | EmptyString => false
  end.

Fixpoint ends_with_sep (s : string) : bool :=
  match s with
  | EmptyString => false
  | String c EmptyString => Ascii.eqb c PyStr.slash
  | String _ r => ends_with_sep r
  end.

(** [os.path.join(a, b)]: an absolute [b] discards [a]; otherwise the two
    are glued with one separator unless [a] is empty or already ends with
    one. *)
Definition join (a b : string) : string :=
  if starts_with_sep b then b
  else if String.eqb a "" || ends_with_sep a then a ++ b
  else a ++ "/" ++ b.

(** [os.path.basename(p)]: what follows the last separator. *)
Definition basename (p : string) : string :=
  last (PyStr.split PyStr.slash p) "".

Definition all_dots (s : string) : bool :=
  forallb (Ascii.eqb PyStr.dot) (list_ascii_of_string s).

(** [os.path.splitext(p)[0]] for a [p] without separator: [p] is cut at
    its last dot, unless only dots precede that dot. *)
Definition splitext_root (p : string) : string :=
  match rev (PyStr.split PyStr.dot p) with
  | [] => p
  | [_] => p
  | _ext :: before =>
      let root := String.concat "." (rev before) in
      if all_dots root then p else root
  end.

(** [p.split(os.sep)[-2]] *)
Definition parent_segment (p : string) : option string :=
  match rev (PyStr.split PyStr.slash p) with
  | _ :: d :: _ => Some d
  | _ => None
  end.

End OsPath.

(** ** The outside world *)

(** A [VaultClient] instance is known by the arguments it was built from;
    [c_addr = None] when no [vault_addr] is passed. *)
Record Client : Type := mkClient {
  c_addr : option pyval;
  c_dry : pyval;
  c_skip_tls : pyval
}.

(** One entry of the mapping returned by [auth_list]. *)
Record RawAuth : Type := mkRawAuth {
  r_type : string;
  r_path : option string;
  r_description : string;
  r_config : Py.dict scalar
}.

(** One item of the [auth-methods] list of [auth-methods.yml]. *)
Record AuthDecl : Type := mkAuthDecl {
  d_type : string;
  d_path : string;
  d_description : string;
  d_tuning : Py.dict scalar;
  d_auth_config : option (Py.dict scalar)
}.

(** The parsed [auth-methods.yml]. *)
Record Conf : Type := mkConf {
  auth_methods : option (list AuthDecl);
  auth_methods_deletion : option scalar
}.

(** What opening and loading the configuration file can give. *)
Inductive conf_file : Type :=
| NoSuchFile
| Malformed
| Loaded (c : Conf).

(** A secret document. *)
Definition secret : Type := Py.dict string.

(** The calls made on the outside world, in the order they are made. *)
Inductive event : Type :=
| NewClient (c : Client)
| Authenticate (c : Client) (token : option string)
| AuthList (c : Client)
| AuthEnable (c : Client) (auth_type path description : string)
| AuthDisable (c : Client) (path : string)
| AuthTune (c : Client) (path : string)
           (default_lease_ttl max_lease_ttl : scalar) (description : string)
| AuthMethodConfiguration (c : Client) (auth_type path : string)
                          (auth_config : Py.dict scalar)
| PolicyList (c : Client)
| PolicyGet (c : Client) (name : string)
| PolicySet (c : Client) (name content : string)
| PolicyDelete (c : Client) (name : string)
| GetSecretsTree (c : Client) (root : string)
| ReadSecret (c : Client) (path : string)
| WriteSecret (c : Client) (path : string) (doc : secret)
| IsDir (path : string)
| MakeDirs (path : string)
| MkDir (path : string)
| Glob (pattern : string)
| OpenRead (path : string)
| OpenWrite (path : string)
| FileWrite (path content : string)
| LoadYaml (path : string)
| PrintHelp.

Inductive level : Type := WARNING | ERROR | CRITICAL.

(** The Vault servers and the local file system.  Queries observe the
    world, commands change it. *)
Record Env (W : Type) : Type := mkEnv {
  authenticate : Client -> option string -> W -> W;
  auth_list : Client -> W -> list (string * RawAuth);
  auth_enable : Client -> string -> string -> string -> W -> W;
  auth_disable : Client -> string -> W -> W;
  auth_tune : Client -> string -> scalar -> scalar -> string -> W -> W;
  auth_method_configuration :
    Client -> string -> string -> Py.dict scalar -> W -> W;
  policy_list : Client -> W -> list string;
  policy_get : Client -> string -> W -> string;
  policy_set : Client -> string -> string -> W -> W;
  policy_delete : Client -> string -> W -> W;
  get_secrets_tree : Client -> string -> W -> list string;
  read_secret : Client -> string -> W -> secret;
  write : Client -> string -> secret -> W -> W;
  isdir : string -> W -> bool;
  makedirs : string -> W -> W;
  mkdir : string -> W -> W;
  iglob : string -> W -> list string;
  read_file : string -> W -> string;
  truncate : string -> W -> W;
  file_write : string -> string -> W -> W;
  load_yaml : string -> W -> conf_file
}.

(** ** Execution monad

    A computation starts in a world and ends with a result or a raised
    exception, the world it leaves, the calls it made and the records it
    logged. *)

Module Exec.

Section Monad.
Variable W : Type.

Record out (A : Type) : Type := mkOut {
  result : res A;
  final : W;
  calls : list event;
  logged : list (level * string)
}.

Definition M (A : Type) : Type := W -> out A.

Definition ret {A} (a : A) : M A :=
  fun w => mkOut (Ok a) w [] [].

Definition raise {A} (e : exn) : M A :=
  fun w => mkOut (Raise e) w [] [].

Definition bind {A B} (m : M A) (f : A -> M B) : M B :=
  fun w =>
    let o := m w in
    match result o with
    | Ok a =>
        let o' := f a (final o) in
        mkOut (result o') (final o')
              (calls o ++ calls o') (logged o ++ logged o')
    | Raise e => mkOut (Raise e) (final o) (calls o) (logged o)
    end.

Definition lift {A} (r : res A) : M A :=
  match r with
  | Ok a => ret a
  | Raise e => raise e
  end.

(** A query: the call is recorded and its answer returned. *)
Definition query {A} (ev : event) (q : W -> A) : M A :=
  fun w => mkOut (Ok (q w)) w [ev] [].

(** A command: the call is recorded and the world changed. *)
Definition command (ev : event) (c : W -> W) : M unit :=
  fun w => mkOut (Ok tt) (c w) [ev] [].

(** A call recorded for its order only. *)
Definition emit (ev : event) : M unit :=
  fun w => mkOut (Ok tt) w [ev] [].

Definition log (l : level) (msg : string) : M unit :=
  fun w => mkOut (Ok tt) w [] [(l, msg)].

(** [for x in l: body(x)] *)
Fixpoint for_each {A} (l : list A) (body : A -> M unit) : M unit :=
  match l with
  | [] => ret tt
  | x :: r => bind (body x) (fun _ => for_each r body)
  end.

(** A loop that carries an accumulator. *)
Fixpoint fold_each {A S} (l : list A) (body : S -> A -> M S) (s : S) : M S :=
  match l with
  | [] => ret s
  | x :: r => bind (body s x) (fun s' => fold_each r body s')
  end.

Definition when (b : bool) (m : M unit) : M unit :=
  if b then m else ret tt.

End Monad.

Arguments ret {W A} a.
Arguments raise {W A} e.
Arguments lift {W A} r.
Arguments log {W} l msg.
Arguments emit {W} ev.

End Exec.

Declare Scope exec_scope.
Delimit Scope exec_scope with exec.
Notation "x <- m ;; k" := (Exec.bind m (fun x => k))
  (at level 61, m at next level, right associativity) : exec_scope.
Notation "m ;; k" := (Exec.bind m (fun _ => k))
  (at level 61, right associativity) : exec_scope.
Open Scope exec_scope.

(** ** [lib/utils.py] *)

Module Utils.

(** Modelled from the spec: [utils.keys_exists_in_dict], whose source is
    not among the verified files.  Both [run] methods hand it the
    argument dict and, per required key, the values that count as "not
    given"; its result is the list of the entries that are missing, which
    the callers report and treat as fatal ("missing required inputs is
    fatal"). *)
Definition keys_exists_in_dict (d : Py.dict pyval)
  (required : list (string * list pyval)) : list (string * list pyval) :=
  filter (fun ke =>
            match Py.dict_get (fst ke) d with
            | None => true
            | Some v => Py.mem v (snd ke)
            end) required.

(** The requirement list both [run] methods pass. *)
Definition required_args : list (string * list pyval) :=
  [ ("vault_addr", [PNone; PStr ""]);
    ("vault_token", [PNone; PBool false]);
    ("vault_config", [PNone; PBool false; PStr ""]) ].

(** [[k['key'].replace("_", "-") for k in missing_args]] *)
Definition dashed (missing : list (string * list pyval)) : list string :=
  map (fun k => Py.replace_char "_" "-" (fst k)) missing.


End Utils.

(** ** [VaultManagerPolicies] *)

Module Policies.

(** The namespace argparse builds for the [policies] sub-command
    together with the global options. *)
Record Args : Type := mkArgs {
  pull : pyval;
  push : pyval;
  vault_addr : pyval;
  vault_token : pyval;
  vault_config : pyval;
  dry_run : pyval;
  skip_tls : pyval
}.

(** [vars(self.parsed_args)] *)
Definition vars (a : Args) : Py.dict pyval :=
  [ ("pull", pull a); ("push", push a); ("vault_addr", vault_addr a);
    ("vault_token", vault_token a); ("vault_config", vault_config a);
    ("dry_run", dry_run a); ("skip_tls", skip_tls a) ].

(** An item of [local_policies]. *)
Record LocalPolicy : Type := mkLocal {
  name : string;
  content : string
}.

Section WithEnv.
Variable W : Type.
Variable E : Env W.

(** Lines 55-67. *)
Definition check_args_integrity (a : Args) : Exec.M W bool :=
  both <- Exec.lift (Py.all [pull a; push a]) ;;
  if (both : bool) then
    Exec.log CRITICAL
      "push and pull args cannot be specified at the same time" ;;
    Exec.ret false
  else
    one <- Exec.lift (Py.any [pull a; push a]) ;;
    if negb one then
      Exec.log CRITICAL "You must specify pull or push" ;;
      Exec.ret false
    else Exec.ret true.

(** Lines 78-95, the body of the loop of [policies_pull].  The file is
    opened (and so emptied) before the policy is fetched. *)
Definition pull_policy (c : Client) (policies_folder policy : string)
  : Exec.M W unit :=
  match Codec.decode policy with
  | None =>
      Exec.log WARNING
        ("Policy " ++ policy ++
         " does not match policy name pattern and will not be pulled")
  | Some (category, stem) =>
      let policy_folder := OsPath.join policies_folder category in
      exists_ <- Exec.query (IsDir policy_folder) (isdir E policy_folder) ;;
      Exec.when (negb exists_)
        (Exec.command (MakeDirs policy_folder)
                      (makedirs E policy_folder)) ;;
      let policy_path := OsPath.join policy_folder (stem ++ ".hcl") in
      Exec.command (OpenWrite policy_path) (truncate E policy_path) ;;
      text <- Exec.query (PolicyGet c policy) (policy_get E c policy) ;;
      Exec.command (FileWrite policy_path text)
                   (file_write E policy_path text)
  end.

(** Lines 69-96. *)
Definition policies_pull (c : Client) (policies_folder : string)
  : Exec.M W unit :=
  distant_policies <- Exec.query (PolicyList c) (policy_list E c) ;;
  Exec.for_each distant_policies (pull_policy c policies_folder).

(** Lines 107-115: one item per file found. *)
Definition read_local_policy (acc : list LocalPolicy) (policy_file : string)
  : Exec.M W (list LocalPolicy) :=
  let stem := OsPath.splitext_root (OsPath.basename policy_file) in
  prefix <- Exec.lift (match OsPath.parent_segment policy_file with
                       | Some d => Ok d
                       | None => Raise IndexError
                       end) ;;
  text <- Exec.query (OpenRead policy_file) (read_file E policy_file) ;;
  Exec.ret (acc ++ [mkLocal (Codec.encode prefix stem) text])%list.

(** The item [read_local_policy] appends for a file, read in world [w];
    the prefix of a path without parent segment is left empty. *)
Definition local_policy_of (w : W) (policy_file : string) : LocalPolicy :=
  mkLocal
    (Codec.encode
       (match OsPath.parent_segment policy_file with
        | Some d => d
        | None => ""
        end)
       (OsPath.splitext_root (OsPath.basename policy_file)))
    (read_file E policy_file w).

(** Lines 98-129.  The "updated"/"created" distinction of lines 125-128
    only selects an INFO message. *)
Definition policies_push (c : Client) (policies_folder : string)
  : Exec.M W unit :=
  distant_policies <- Exec.query (PolicyList c) (policy_list E c) ;;
  let pattern := OsPath.join policies_folder "*/*.hcl" in
  files <- Exec.query (Glob pattern) (iglob E pattern) ;;
  local_policies <- Exec.fold_each files read_local_policy [] ;;
  Exec.for_each distant_policies (fun distant_policy =>
    Exec.when (negb (PyStr.mem distant_policy (map name local_policies)))
      (Exec.command (PolicyDelete c distant_policy)
                    (policy_delete E c distant_policy))) ;;
  Exec.for_each local_policies (fun policy =>
    Exec.command (PolicySet c (name policy) (content policy))
                 (policy_set E c (name policy) (content policy))).

(** [os.path.join] wants a string. *)
Definition as_str (v : pyval) : Exec.M W string :=
  match v with
  | PStr s => Exec.ret s
  | _ => Exec.raise (TypeError "expected str, bytes or os.PathLike object")
  end.

(** Lines 131-170. *)
Definition run (a : Args) : Exec.M W retval :=
  ok <- check_args_integrity a ;;
  if negb ok then
    Exec.emit PrintHelp ;;
    Exec.ret RetFalse
  else
    let missing_args :=
      Utils.keys_exists_in_dict (vars a) Utils.required_args in
    if negb (Nat.eqb (List.length missing_args) 0) then
      Exec.raise (ValueError "Following arguments are missing"
                             (Utils.dashed missing_args))
    else
      config <- as_str (vault_config a) ;;
      let policies_folder := OsPath.join config "policies" in
      exists_ <- Exec.query (IsDir policies_folder)
                            (isdir E policies_folder) ;;
      Exec.when (negb exists_)
        (Exec.command (MkDir policies_folder) (mkdir E policies_folder)) ;;
      let c := mkClient (Some (vault_addr a)) (dry_run a) (skip_tls a) in
      Exec.emit (NewClient c) ;;
      Exec.command (Authenticate c None) (authenticate E c None) ;;
      Exec.when (Py.truthy (pull a)) (policies_pull c policies_folder) ;;
      Exec.when (Py.truthy (push a)) (policies_push c policies_folder) ;;
      Exec.ret RetNone.

End WithEnv.

End Policies.

(** ** [lib/VaultAuthMethod.py] *)

Module VaultAuthMethod.

(** Modelled from the spec: the class [VaultAuthMethod], whose source is
    not among the verified files.  An auth mount has a [type], a [path],
    a [description], a [tuning] mapping and, for declared mounts only, an
    optional [auth_config]. *)
Record t : Type := mk {
  type : string;
  path : string;
  description : string;
  tuning : Py.dict scalar;
  auth_config : option (Py.dict scalar)
}.

(** Modelled from the spec: [__eq__] of the absent class.  "[equals(a, b)]
    for AuthMount: true iff [a.path == b.path && a.type == b.type]". *)
Definition eqb (a b : t) : bool :=
  String.eqb (path a) (path b) && String.eqb (type a) (type b).

(** [a in l] and [a not in l] compare with [==]. *)
Definition mem (a : t) (l : list t) : bool := existsb (fun e => eqb e a) l.

(** Modelled from the spec: [get_tuning_hash] of the absent class.  The
    hash "canonicalizes the tuning mapping by sorting keys, serializes
    deterministically, and applies a stable hashing function"; the last
    two steps are the parameter [digest]. *)
Definition get_tuning_hash (digest : list (string * scalar) -> string)
  (a : t) : string :=
  digest (Py.sorted_items (tuning a)).

(** [if auth_method.auth_config:] *)
Definition has_auth_config (a : t) : bool :=
  match auth_config a with
  | None | Some [] => false
  | Some (_ :: _) => true
  end.

End VaultAuthMethod.

(** ** [VaultManagerAuth] *)

Module Auth.

Module VAM := VaultAuthMethod.

(** The keyword arguments [run] receives, as the named tuple it builds. *)
Record KwArgs : Type := mkKwArgs {
  push : pyval;
  vault_addr : pyval;
  vault_token : pyval;
  vault_config : pyval;
  dry_run : pyval;
  skip_tls : pyval
}.

(** [dict(self.kwargs._asdict())] *)
Definition asdict (k : KwArgs) : Py.dict pyval :=
  [ ("push", push k); ("vault_addr", vault_addr k);
    ("vault_token", vault_token k); ("vault_config", vault_config k);
    ("dry_run", dry_run k); ("skip_tls", skip_tls k) ].

(** [d[k]] on a tuning mapping. *)
Definition getitem (d : Py.dict scalar) (k : string) : res scalar :=
  match Py.dict_get k d with
  | Some v => Ok v
  | None => Raise (KeyError k)
  end.

(** Lines 107-114: the object built for one entry of the listing. *)
Definition of_raw (kv : string * RawAuth) : VAM.t :=
  VAM.mk (r_type (snd kv))
         (match r_path (snd kv) with
          | Some p => p
          | None => fst kv
          end)
         (r_description (snd kv))
         (Py.sorted_items (r_config (snd kv)))
         None.

(** Lines 127-138: the object built for one declared method. *)
Definition of_decl (d : AuthDecl) : VAM.t :=
  VAM.mk (d_type d) (d_path d) (d_description d)
         (Py.sorted_items (d_tuning d))
         (option_map (@Py.sorted_items scalar) (d_auth_config d)).

Section WithEnv.
Variable W : Type.
Variable E : Env W.
Variable digest : list (string * scalar) -> string.

Definition hash_of : VAM.t -> string := VAM.get_tuning_hash digest.

(** Lines 70-81. *)
Definition check_args_integrity (k : KwArgs) : Exec.M W bool :=
  let args_false_count := Py.count (PBool false) [push k] in
  let args_none_count := Py.count PNone [push k] in
  let no_args_count := args_false_count + args_none_count in
  if existsb (Nat.eqb no_args_count) [1] then
    Exec.log CRITICAL "you must specify a command" ;;
    Exec.ret false
  else Exec.ret true.

(** Lines 83-96; the result is [self.conf] as the method leaves it on a
    fresh instance.  The value the method returns is dropped by its only
    caller. *)
Definition read_configuration (config_dir : string)
  : Exec.M W (option Conf) :=
  let file := OsPath.join config_dir "auth-methods.yml" in
  loaded <- Exec.query (LoadYaml file) (load_yaml E file) ;;
  match loaded with
  | NoSuchFile => Exec.raise (FileNotFoundError file)
  | Malformed =>
      Exec.log CRITICAL "Impossible to load conf file: " ;;
      Exec.ret None
  | Loaded c => Exec.ret (Some c)
  end.

(** Lines 98-118. *)
Definition get_distant_auth_methods (c : Client) : Exec.M W (list VAM.t) :=
  raw <- Exec.query (AuthList c) (auth_list E c) ;;
  Exec.ret (map of_raw raw).

(** Lines 120-142. *)
Definition get_local_auth_methods (conf : option Conf)
  : Exec.M W (list VAM.t) :=
  match conf with
  | None => Exec.raise (TypeError "'NoneType' object is not subscriptable")
  | Some cf =>
      match auth_methods cf with
      | None => Exec.raise (KeyError "auth-methods")
      | Some decls =>
          Exec.ret (map of_decl decls)
      end
  end.

(** Lines 144-152. *)
Definition disable_distant_auth_methods (c : Client)
  (distant_auth_methods local_auth_methods : list VAM.t) : Exec.M W unit :=
  Exec.for_each distant_auth_methods (fun auth_method =>
    Exec.when (negb (VAM.mem auth_method local_auth_methods))
      (Exec.command (AuthDisable c (VAM.path auth_method))
                    (auth_disable E c (VAM.path auth_method)))).

(** Lines 154-166. *)
Definition enable_distant_auth_methods (c : Client)
  (local_auth_methods distant_auth_methods : list VAM.t) : Exec.M W unit :=
  Exec.for_each local_auth_methods (fun auth_method =>
    Exec.when (negb (VAM.mem auth_method distant_auth_methods))
      (Exec.command
         (AuthEnable c (VAM.type auth_method) (VAM.path auth_method)
                     (VAM.description auth_method))
         (auth_enable E c (VAM.type auth_method) (VAM.path auth_method)
                      (VAM.description auth_method)))).

(** Lines 168-191. *)
Definition tune_auth_method (c : Client)
  (local_auth_method distant_auth_method : VAM.t) : Exec.M W unit :=
  default_lease_ttl <-
    Exec.lift (getitem (VAM.tuning local_auth_method) "default_lease_ttl") ;;
  max_lease_ttl <-
    Exec.lift (getitem (VAM.tuning local_auth_method) "max_lease_ttl") ;;
  Exec.command
    (AuthTune c (VAM.path local_auth_method) default_lease_ttl
              max_lease_ttl (VAM.description local_auth_method))
    (auth_tune E c (VAM.path local_auth_method) default_lease_ttl
               max_lease_ttl (VAM.description local_auth_method)).

(** Lines 193-209. *)
Definition find_auth_methods_to_tune (c : Client)
  (distant_auth_methods local_auth_methods : list VAM.t) : Exec.M W unit :=
  Exec.for_each distant_auth_methods (fun distant_auth =>
    Exec.for_each local_auth_methods (fun local_auth =>
      Exec.when (VAM.eqb distant_auth local_auth)
        (let distant_tuning_hash := hash_of distant_auth in
         let local_tuning_hash := hash_of local_auth in
         Exec.when (negb (String.eqb distant_tuning_hash local_tuning_hash))
           (tune_auth_method c local_auth distant_auth)))).

(** Lines 223-224:
    ["auth-methods-deletion" in self.conf and self.conf[...]]. *)
Definition deletion_enabled (cf : Conf) : bool :=
  match auth_methods_deletion cf with
  | Some v => Py.truthy_scalar v
  | None => false
  end.

(** Lines 233-253: the method specific configuration of one mount. *)
Definition configure_auth_method (c : Client) (auth_method : VAM.t)
  : Exec.M W unit :=
  let cfg := match VAM.auth_config auth_method with
             | Some d => d
             | None => []
             end in
  let configure :=
    Exec.command
      (AuthMethodConfiguration c (VAM.type auth_method)
                               (VAM.path auth_method) cfg)
      (auth_method_configuration E c (VAM.type auth_method)
                                 (VAM.path auth_method) cfg) in
  if VAM.has_auth_config auth_method then
    if String.eqb (VAM.type auth_method) "ldap" then configure
    else if String.eqb (VAM.type auth_method) "approle" then configure
    else Exec.ret tt
  else Exec.ret tt.

(** Lines 211-254. *)
Definition auth_push (c : Client) (config_dir : string) : Exec.M W unit :=
  conf <- read_configuration config_dir ;;
  distant_auth_methods <- get_distant_auth_methods c ;;
  local_auth_methods <- get_local_auth_methods conf ;;
  Exec.when (match conf with
             | Some cf => deletion_enabled cf
             | None => false
             end)
    (disable_distant_auth_methods c distant_auth_methods
                                  local_auth_methods) ;;
  enable_distant_auth_methods c local_auth_methods distant_auth_methods ;;
  distant_auth_methods <- get_distant_auth_methods c ;;
  find_auth_methods_to_tune c distant_auth_methods local_auth_methods ;;
  Exec.for_each local_auth_methods (configure_auth_method c).

(** [os.path.join] wants a string. *)
Definition as_str (v : pyval) : Exec.M W string :=
  match v with
  | PStr s => Exec.ret s
  | _ => Exec.raise (TypeError "expected str, bytes or os.PathLike object")
  end.

(** Lines 256-288. *)
Definition run (k : KwArgs) : Exec.M W retval :=
  ok <- check_args_integrity k ;;
  if negb ok then
    Exec.emit PrintHelp ;;
    Exec.ret RetFalse
  else
    let missing_args :=
      Utils.keys_exists_in_dict (asdict k) Utils.required_args in
    if negb (Nat.eqb (List.length missing_args) 0) then
      Exec.raise (ValueError "Following arguments are missing"
                             (Utils.dashed missing_args))
    else
      let c := mkClient (Some (vault_addr k)) (dry_run k) (skip_tls k) in
      Exec.emit (NewClient c) ;;
      Exec.command (Authenticate c None) (authenticate E c None) ;;
      if Py.truthy (push k) then
        config_dir <- as_str (vault_config k) ;;
        auth_push c config_dir ;;
        Exec.ret RetNone
      else Exec.ret RetNone.

End WithEnv.

End Auth.

(** ** The plan of an auth push

    What a push is expected to call, and the intermediate outcomes of its
    phases; the statements about [auth_push] are phrased with these. *)

Module AuthPlan.
Import Exec.
Module VAM := VaultAuthMethod.

Definition is_disable (e : event) : bool :=
  match e with AuthDisable _ _ => true | _ => false end.

Definition is_enable (e : event) : bool :=
  match e with AuthEnable _ _ _ _ => true | _ => false end.

Definition is_tune (e : event) : bool :=
  match e with AuthTune _ _ _ _ _ => true | _ => false end.

Definition is_configuration (e : event) : bool :=
  match e with AuthMethodConfiguration _ _ _ _ => true | _ => false end.

(** The mounts a push disables: those of the listing that are not
    declared. *)
Definition to_disable (distant local : list VAM.t) : list VAM.t :=
  filter (fun m => negb (VAM.mem m local)) distant.

(** The mounts a push enables: the declared ones that are not listed. *)
Definition to_enable (local distant : list VAM.t) : list VAM.t :=
  filter (fun m => negb (VAM.mem m distant)) local.

Definition disable_call (c : Client) (m : VAM.t) : event :=
  AuthDisable c (VAM.path m).

Definition enable_call (c : Client) (m : VAM.t) : event :=
  AuthEnable c (VAM.type m) (VAM.path m) (VAM.description m).

(** [d[k]], with [null] standing for an absent key. *)
Definition tuning_value (k : string) (m : VAM.t) : scalar :=
  match Py.dict_get k (VAM.tuning m) with
  | Some v => v
  | None => SNull
  end.

Definition has_key (k : string) (m : VAM.t) : Prop :=
  Py.dict_get k (VAM.tuning m) <> None.

(** The tune call for a declared mount. *)
Definition tune_call (c : Client) (m : VAM.t) : event :=
  AuthTune c (VAM.path m) (tuning_value "default_lease_ttl" m)
           (tuning_value "max_lease_ttl" m) (VAM.description m).

Section WithEnv.
Variable W : Type.
Variable E : Env W.
Variable digest : list (string * scalar) -> string.

(** The tune calls a listing and a declaration call for: one per pair of
    a listed and a declared mount that are equal and whose tuning hashes
    differ, listed mounts outermost. *)
Definition tune_calls (c : Client) (distant local : list VAM.t)
  : list event :=
  flat_map (fun d =>
    flat_map (fun l =>
      if VAM.eqb d l then
        if String.eqb (Auth.hash_of digest d) (Auth.hash_of digest l)
        then [] else [tune_call c l]
      else []) local) distant.

(** The phases of a push with client [c] from world [w], for the loaded
    configuration [cf] whose auth methods are [decls]. *)
Section Phases.
Variables (c : Client) (w : W) (cf : Conf) (decls : list AuthDecl).

Definition local : list VAM.t := map Auth.of_decl decls.
Definition distant : list VAM.t := map Auth.of_raw (auth_list E c w).

Definition disabled : out W unit :=
  when (Auth.deletion_enabled cf)
       (Auth.disable_distant_auth_methods E c distant local) w.

Definition enabled : out W unit :=
  Auth.enable_distant_auth_methods E c local distant (final disabled).

Definition refreshed : list VAM.t :=
  map Auth.of_raw (auth_list E c (final enabled)).

Definition tuned : out W unit :=
  Auth.find_auth_methods_to_tune E digest c refreshed local (final enabled).

Definition configured : out W unit :=
  for_each local (Auth.configure_auth_method E c) (final tuned).

End Phases.
End WithEnv.
End AuthPlan.

(** ** [VaultManagerKV] *)

Module KV.

(** The namespace argparse builds for the [kv] sub-command: [export] is
    [None] or the one element list of [nargs=1]. *)
Record Args : Type := mkArgs {
  export : option (list string);
  dry_run : pyval;
  skip_tls : pyval
}.

Definition needed_env_vars : list string :=
  ["VAULT_ADDR"; "VAULT_TOKEN"; "VAULT_TARGET_ADDR"; "VAULT_TARGET_TOKEN"].

(** [k in os.environ] *)
Definition in_environ (environ : Py.dict string) (k : string) : bool :=
  match Py.dict_get k environ with
  | Some _ => true
  | None => false
  end.

(** [os.environ[k]] *)
Definition environ_get (environ : Py.dict string) (k : string) : res string :=
  match Py.dict_get k environ with
  | Some v => Ok v
  | None => Raise (KeyError k)
  end.

(** [str(needed_env_vars)] *)
Definition str_needed_env_vars : string :=
  "['VAULT_ADDR', 'VAULT_TOKEN', 'VAULT_TARGET_ADDR', 'VAULT_TARGET_TOKEN']".

Section WithEnv.
Variable W : Type.
Variable E : Env W.
Variable environ : Py.dict string.

(** Lines 53-68. *)
Definition check_env_vars : Exec.M W bool :=
  if negb (forallb (in_environ environ) needed_env_vars) then
    Exec.log CRITICAL "The following env vars must be set" ;;
    Exec.log CRITICAL str_needed_env_vars ;;
    Exec.ret false
  else
    _ <- Exec.lift (environ_get environ "VAULT_ADDR") ;;
    Exec.ret true.

(** [self.parsed_args.export[0]] *)
Definition export0 (a : Args) : res string :=
  match export a with
  | None => Raise (TypeError "'NoneType' object is not subscriptable")
  | Some [] => Raise IndexError
  | Some (p :: _) => Ok p
  end.

(** The client of the source instance (line 77). *)
Definition source_client (a : Args) : Client :=
  mkClient None (dry_run a) (skip_tls a).

(** The client of the target instance (line 107). *)
Definition target_client (a : Args) (target_addr : string) : Client :=
  mkClient (Some (PStr target_addr)) (dry_run a) (skip_tls a).

(** Lines 70-97. *)
Definition read_from_vault (a : Args) : Exec.M W (Py.dict secret) :=
  let vault_client := source_client a in
  Exec.emit (NewClient vault_client) ;;
  Exec.command (Authenticate vault_client None)
               (authenticate E vault_client None) ;;
  root <- Exec.lift (export0 a) ;;
  _ <- Exec.lift (environ_get environ "VAULT_ADDR") ;;
  _ <- Exec.lift (environ_get environ "VAULT_TARGET_ADDR") ;;
  kv_list <- Exec.query (GetSecretsTree vault_client root)
                        (get_secrets_tree E vault_client root) ;;
  Exec.fold_each kv_list (fun kv_full kv =>
    doc <- Exec.query (ReadSecret vault_client kv)
                      (read_secret E vault_client kv) ;;
    Exec.ret (Py.dict_set kv doc kv_full)) [].

(** Lines 99-116. *)
Definition push_to_vault (a : Args) (exported_kv : Py.dict secret)
  : Exec.M W unit :=
  target_addr <- Exec.lift (environ_get environ "VAULT_TARGET_ADDR") ;;
  let vault_client := target_client a target_addr in
  Exec.emit (NewClient vault_client) ;;
  target_token <- Exec.lift (environ_get environ "VAULT_TARGET_TOKEN") ;;
  Exec.command (Authenticate vault_client (Some target_token))
               (authenticate E vault_client (Some target_token)) ;;
  Exec.for_each (Py.dict_keys exported_kv) (fun secret_path =>
    doc <- Exec.lift (match Py.dict_get secret_path exported_kv with
                      | Some d => Ok d
                      | None => Raise (KeyError secret_path)
                      end) ;;
    Exec.command (WriteSecret vault_client secret_path doc)
                 (write E vault_client secret_path doc)).

(** [not self.parsed_args.export] *)
Definition no_export (a : Args) : bool :=
  match export a with
  | None | Some [] => true
  | Some (_ :: _) => false
  end.

(** Lines 118-137. *)
Definition run (a : Args) : Exec.M W retval :=
  ok <- check_env_vars ;;
  if negb ok then Exec.ret RetFalse
  else if no_export a then
    Exec.log ERROR "Only one parameter should be specified" ;;
    Exec.emit PrintHelp ;;
    Exec.ret RetFalse
  else
    exported_kv <- read_from_vault a ;;
    push_to_vault a exported_kv ;;
    Exec.ret RetNone.

End WithEnv.

End KV.

(** ** A simulated world

    An in-memory Vault and file system implementing [Env]: enough of the
    behaviour of the real collaborators to run the modules on concrete
    inputs. *)

Module Sim.

Record world : Type := mkWorld {
  policies : Py.dict string;
  mounts : list (string * RawAuth);
  secrets : Py.dict secret;
  target_secrets : Py.dict secret;
  dirs : list string;
  files : Py.dict string;
  conf : conf_file
}.

Definition remove {V} (k : string) (d : Py.dict V) : Py.dict V :=
  filter (fun kv => negb (String.eqb (fst kv) k)) d.

Definition lookup {V} (k : string) (d : Py.dict V) (default : V) : V :=
  match Py.dict_get k d with
  | Some v => v
  | None => default
  end.

(** Shell pattern matching where [*] stays within one path segment. *)
Fixpoint glob_match (pat s : list ascii) : bool :=
  match pat with
  | [] => match s with [] => true | _ => false end
  | p :: pat' =>
      if Ascii.eqb p "*"%char then
        (fix star (s : list ascii) : bool :=
           glob_match pat' s ||
           match s with
           | [] => false
           | ch :: s' => negb (Ascii.eqb ch PyStr.slash) && star s'
           end) s
      else
        match s with
        | [] => false
        | ch :: s' => Ascii.eqb ch p && glob_match pat' s'
        end
  end.

Definition set_policies (w : world) (p : Py.dict string) : world :=
  mkWorld p (mounts w) (secrets w) (target_secrets w) (dirs w) (files w)
          (conf w).

Definition set_mounts (w : world) (m : list (string * RawAuth)) : world :=
  mkWorld (policies w) m (secrets w) (target_secrets w) (dirs w) (files w)
          (conf w).

Definition set_dirs (w : world) (d : list string) : world :=
  mkWorld (policies w) (mounts w) (secrets w) (target_secrets w) d (files w)
          (conf w).

Definition set_files (w : world) (f : Py.dict string) : world :=
  mkWorld (policies w) (mounts w) (secrets w) (target_secrets w) (dirs w) f
          (conf w).

Definition store (c : Client) (w : world) : Py.dict secret :=
  match c_addr c with
  | None => secrets w
  | Some _ => target_secrets w
  end.

Definition set_store (c : Client) (w : world) (s : Py.dict secret) : world :=
  match c_addr c with
  | None =>
      mkWorld (policies w) (mounts w) s (target_secrets w) (dirs w)
              (files w) (conf w)
  | Some _ =>
      mkWorld (policies w) (mounts w) (secrets w) s (dirs w) (files w)
              (conf w)
  end.

Definition retune (path : string) (d m : scalar) (description : string)
  (kv : string * RawAuth) : string * RawAuth :=
  if String.eqb (fst kv) path then
    (fst kv,
     mkRawAuth (r_type (snd kv)) (r_path (snd kv)) description
               (Py.dict_set "max_lease_ttl" m
                  (Py.dict_set "default_lease_ttl" d (r_config (snd kv)))))
  else kv.

Definition env : Env world :=
  mkEnv
    (fun _ _ w => w)
    (fun _ w => mounts w)
    (fun _ ty path description w =>
       set_mounts w
         (mounts w ++ [(path, mkRawAuth ty None description [])])%list)
    (fun _ path w => set_mounts w (remove path (mounts w)))
    (fun _ path d m description w =>
       set_mounts w (map (retune path d m description) (mounts w)))
    (fun _ _ _ _ w => w)
    (fun _ w => Py.dict_keys (policies w))
    (fun _ name w => lookup name (policies w) "")
    (fun _ name text w => set_policies w (Py.dict_set name text (policies w)))
    (fun _ name w => set_policies w (remove name (policies w)))
    (fun c root w =>
       filter (String.prefix root) (Py.dict_keys (store c w)))
    (fun c path w => lookup path (store c w) [])
    (fun c path doc w => set_store c w (Py.dict_set path doc (store c w)))
    (fun path w => PyStr.mem path (dirs w))
    (fun path w => set_dirs w (dirs w ++ [path])%list)
    (fun path w => set_dirs w (dirs w ++ [path])%list)
    (fun pattern w =>
       filter (fun f => glob_match (list_ascii_of_string pattern)
                                   (list_ascii_of_string f))
              (Py.dict_keys (files w)))
    (fun path w => lookup path (files w) "")
    (fun path w => set_files w (Py.dict_set path "" (files w)))
    (fun path text w =>
       set_files w
         (Py.dict_set path (lookup path (files w) "" ++ text) (files w)))
    (fun _ w => conf w).

(** A digest that serializes the sorted tuning mapping. *)
Definition show_scalar (v : scalar) : string :=
  match v with
  | SNull => "null"
  | SBool true => "true"
  | SBool false => "false"
  | SInt z => HexString.of_Z z
  | SStr s => "s" ++ s
  end.

Definition digest (items : list (string * scalar)) : string :=
  String.concat ";"
    (map (fun kv => fst kv ++ "=" ++ show_scalar (snd kv)) items).

End Sim.

(** ** Concrete worlds *)

Module Worlds.

Definition client : Client :=
  mkClient (Some (PStr "https://vault.example")) (PBool false) (PBool false).

(** Local files [team/read.hcl] and [team/write.hcl]; remote policies
    [team_read_policy], [obsolete_deploy_policy] and [custom_unmanaged]. *)
Definition policy_world : Sim.world :=
  Sim.mkWorld
    [("team_read_policy", "path r0"); ("obsolete_deploy_policy", "path d");
     ("custom_unmanaged", "path c")]
    [] [] []
    ["conf/policies"]
    [("conf/policies/team/read.hcl", "path r1");
     ("conf/policies/team/write.hcl", "path w1")]
    NoSuchFile.

(** The declaration of one AppRole mount with lease times 3600/7200,
    against a server that has it with 1800/7200 next to a token mount. *)
Definition declared : list AuthDecl :=
  [mkAuthDecl "approle" "apps" "applications"
              [("max_lease_ttl", SInt 7200); ("default_lease_ttl", SInt 3600)]
              None].

Definition auth_world (deletion : option scalar) : Sim.world :=
  Sim.mkWorld [] 
    [("apps", mkRawAuth "approle" None "applications"
                [("default_lease_ttl", SInt 1800);
                 ("max_lease_ttl", SInt 7200)]);
     ("token", mkRawAuth "token" None "token based credentials"
                 [("default_lease_ttl", SInt 0); ("max_lease_ttl", SInt 0)])]
    [] [] [] []
    (Loaded (mkConf (Some declared) deletion)).

(** A source server with two leaves under [secret/app] and one elsewhere;
    the target holds an older document at one of the paths. *)
Definition environ : Py.dict string :=
  [("VAULT_ADDR", "https://source.example"); ("VAULT_TOKEN", "s.source");
   ("VAULT_TARGET_ADDR", "https://target.example");
   ("VAULT_TARGET_TOKEN", "s.target")].

Definition kv_args : KV.Args :=
  KV.mkArgs (Some ["secret/app"]) (PBool false) (PBool false).

Definition kv_world : Sim.world :=
  Sim.mkWorld [] []
    [("secret/app/db", [("password", "hunter2")]);
     ("secret/other", [("k", "v")]);
     ("secret/app/api", [("key", "abc")])]
    [("secret/app/db", [("password", "old")])]
    [] [] NoSuchFile.




End Worlds.

(** ** Kinds of calls *)

Module Effects.

(** The calls that change the state of a Vault server. *)
Definition changes_server (e : event) : bool :=
  match e with
  | AuthEnable _ _ _ _ | AuthDisable _ _ | AuthTune _ _ _ _ _
  | AuthMethodConfiguration _ _ _ _
  | PolicySet _ _ _ | PolicyDelete _ _ | WriteSecret _ _ _ => true
  | _ => false
  end.

(** The calls that change the local file system. *)
Definition changes_files (e : event) : bool :=
  match e with
  | MakeDirs _ | MkDir _ | OpenWrite _ | FileWrite _ _ => true
  | _ => false
  end.

(** The client a call goes through, for the calls that go through one. *)
Definition client_of (e : event) : option Client :=
  match e with
  | NewClient c | Authenticate c _ | AuthList c | AuthEnable c _ _ _
  | AuthDisable c _ | AuthTune c _ _ _ _ | AuthMethodConfiguration c _ _ _
  | PolicyList c | PolicyGet c _ | PolicySet c _ _ | PolicyDelete c _
  | GetSecretsTree c _ | ReadSecret c _ | WriteSecret c _ _ => Some c
  | _ => None
  end.

End Effects.

(** ** The method specific configuration of a push *)

Module AuthConfiguration.
Module VAM := VaultAuthMethod.

(** The declared mounts that get a method specific configuration. *)
Definition configurable (m : VAM.t) : bool :=
  VAM.has_auth_config m &&
  (String.eqb (VAM.type m) "ldap" || String.eqb (VAM.type m) "approle").

(** The configuration call for a declared mount. *)
Definition configuration_call (c : Client) (m : VAM.t) : event :=
  AuthMethodConfiguration c (VAM.type m) (VAM.path m)
    (match VAM.auth_config m with
     | Some d => d
     | None => []
     end).

(** The calls that change the mounts of a server. *)
Definition changes_mounts (e : event) : bool :=
  AuthPlan.is_disable e || AuthPlan.is_enable e || AuthPlan.is_tune e.

End AuthConfiguration.

(** ** More concrete worlds *)

Module MoreWorlds.
Import Worlds.

(** A server that holds only policies this tool does not name. *)
Definition foreign_world : Sim.world :=
  Sim.mkWorld [("default", "path d"); ("root", ""); ("a_b_c_d", "path x")]
              [] [] [] ["conf/policies"] [] NoSuchFile.

(** A declaration with an LDAP mount the server does not have yet. *)
Definition declared_with_ldap : list AuthDecl :=
  [mkAuthDecl "approle" "apps" "applications"
              [("max_lease_ttl", SInt 7200); ("default_lease_ttl", SInt 3600)]
              None;
   mkAuthDecl "ldap" "corp" "corporate directory"
              [("default_lease_ttl", SInt 600); ("max_lease_ttl", SInt 1200)]
              (Some [("url", SStr "ldaps://ldap.example")])].

Definition ldap_world : Sim.world :=
  Sim.mkWorld []
    [("apps", mkRawAuth "approle" None "applications"
                [("default_lease_ttl", SInt 1800);
                 ("max_lease_ttl", SInt 7200)]);
     ("token", mkRawAuth "token" None "token based credentials"
                 [("default_lease_ttl", SInt 0); ("max_lease_ttl", SInt 0)])]
    [] [] [] []
    (Loaded (mkConf (Some declared_with_ldap) None)).

(** A declaration that leaves out [max_lease_ttl]. *)
Definition declared_short : list AuthDecl :=
  [mkAuthDecl "approle" "apps" "applications"
              [("default_lease_ttl", SInt 3600)] None].

(** A server that already matches [declared]. *)
Definition matching_world : Sim.world :=
  Sim.mkWorld []
    [("apps", mkRawAuth "approle" None "applications"
                [("default_lease_ttl", SInt 3600);
                 ("max_lease_ttl", SInt 7200)])]
    [] [] [] []
    (Loaded (mkConf (Some declared) None)).

Definition push_args : Auth.KwArgs :=
  Auth.mkKwArgs (PBool true) (PStr "https://vault.example") (PStr "s.token")
                (PStr "conf") (PBool false) (PBool false).

Definition kv_no_export : KV.Args :=
  KV.mkArgs None (PBool false) (PBool false).

End MoreWorlds.

(** * Properties *)

(** ** Facts about strings *)

Module PyStrFacts.
Import PyStr.

Lemma split_nonempty sep s : split sep s <> [].
Proof.
  destruct s as [|c r]; simpl; [discriminate|].
  destruct (Ascii.eqb c sep); [discriminate|].
  destruct (split sep r); discriminate.
Qed.

Lemma split_no_sep sep s : has_char sep s = false -> split sep s = [s].
Proof.
  induction s as [|c r IH]; simpl; [reflexivity|].
  intros H. apply orb_false_iff in H as [Hc Hr].
  rewrite Hc, (IH Hr). reflexivity.
Qed.

Lemma split_app sep a b :
  has_char sep a = false ->
  split sep (a ++ String sep b) = a :: split sep b.
Proof.
  induction a as [|c r IH]; simpl; intros H.
  - rewrite Ascii.eqb_refl. reflexivity.
  - apply orb_false_iff in H as [Hc Hr].
    rewrite Hc, (IH Hr). reflexivity.
Qed.

Lemma mem_In x l : mem x l = true <-> In x l.
Proof.
  unfold mem. rewrite existsb_exists. split.
  - intros [y [Hy E]]. apply String.eqb_eq in E. subst. exact Hy.
  - intros H. exists x. split; [exact H | apply String.eqb_refl].
Qed.

End PyStrFacts.

(** ** Facts about the execution monad *)

Module ExecFacts.
Import Exec.

Section Facts.
Variable W : Type.

Lemma out_eta {A} (o : out W A) :
  o = mkOut (result o) (final o) (calls o) (logged o).
Proof. destruct o; reflexivity. Qed.

Lemma bind_ok {A B} (m : M W A) (f : A -> M W B) w a :
  result (m w) = Ok a ->
  bind m f w =
  mkOut (result (f a (final (m w)))) (final (f a (final (m w))))
        (calls (m w) ++ calls (f a (final (m w))))
        (logged (m w) ++ logged (f a (final (m w)))).
Proof. intros H. unfold bind. rewrite H. reflexivity. Qed.

Lemma bind_raise {A B} (m : M W A) (f : A -> M W B) w e :
  result (m w) = Raise e ->
  bind m f w = mkOut (Raise e) (final (m w)) (calls (m w)) (logged (m w)).
Proof. intros H. unfold bind. rewrite H. reflexivity. Qed.

Lemma bind_eq {A B} {m : M W A} (f : A -> M W B) {w a w' cs ls}
  (H : m w = mkOut (Ok a) w' cs ls) :
  bind m f w =
  mkOut (result (f a w')) (final (f a w'))
        (cs ++ calls (f a w')) (ls ++ logged (f a w')).
Proof. unfold bind. rewrite H. reflexivity. Qed.

Lemma bind_eq_raise {A B} {m : M W A} (f : A -> M W B) {w e w' cs ls}
  (H : m w = mkOut (Raise e) w' cs ls) :
  bind m f w = mkOut (Raise e) w' cs ls.
Proof. unfold bind. rewrite H. reflexivity. Qed.

(** The primitive computations in front of a continuation. *)
Lemma bind_ret {A B} (a : A) (f : A -> M W B) w :
  bind (ret a) f w =
  mkOut (result (f a w)) (final (f a w)) (calls (f a w)) (logged (f a w)).
Proof. reflexivity. Qed.

Lemma bind_raise_now {A B} (e : exn) (f : A -> M W B) w :
  bind (raise e) f w = mkOut (Raise e) w [] [].
Proof. reflexivity. Qed.

Lemma bind_emit {B} (ev : event) (f : unit -> M W B) w :
  bind (emit ev) f w =
  mkOut (result (f tt w)) (final (f tt w)) (ev :: calls (f tt w))
        (logged (f tt w)).
Proof. reflexivity. Qed.

Lemma bind_command {B} (ev : event) (c : W -> W) (f : unit -> M W B) w :
  bind (command ev c) f w =
  mkOut (result (f tt (c w))) (final (f tt (c w)))
        (ev :: calls (f tt (c w))) (logged (f tt (c w))).
Proof. reflexivity. Qed.

Lemma bind_query {A B} (ev : event) (q : W -> A) (f : A -> M W B) w :
  bind (query ev q) f w =
  mkOut (result (f (q w) w)) (final (f (q w) w))
        (ev :: calls (f (q w) w)) (logged (f (q w) w)).
Proof. reflexivity. Qed.

Lemma bind_log {B} (l : level) (msg : string) (f : unit -> M W B) w :
  bind (log l msg) f w =
  mkOut (result (f tt w)) (final (f tt w)) (calls (f tt w))
        ((l, msg) :: logged (f tt w)).
Proof. reflexivity. Qed.

(** A loop whose body is a guarded command runs to its end; it issues the
    command of each selected item, in order. *)
Lemma for_each_commands {A} (p : A -> bool) (ev : A -> event)
  (act : A -> W -> W) (l : list A) (w : W) :
  for_each l (fun x => when (p x) (command (ev x) (act x))) w =
  mkOut (Ok tt)
        (fold_left (fun w x => if p x then act x w else w) l w)
        (map ev (filter p l)) [].
Proof.
  revert w. induction l as [|x l IH]; intros w; [reflexivity|].
  cbn [for_each fold_left filter].
  unfold bind at 1. destruct (p x); cbn; rewrite IH; reflexivity.
Qed.

Lemma for_each_ext {A} (f g : A -> M W unit) (l : list A) (w : W) :
  (forall x, In x l -> forall w, f x w = g x w) ->
  for_each l f w = for_each l g w.
Proof.
  revert w. induction l as [|x l IH]; intros w H; [reflexivity|].
  cbn [for_each]. unfold bind. rewrite (H x (or_introl eq_refl) w).
  destruct (result (g x w)); [|reflexivity].
  rewrite IH; [reflexivity|]. intros y Hy. apply H. right. exact Hy.
Qed.

(** A loop over a total body splits at any point of its list. *)
Lemma for_each_total {A} (f : A -> M W unit) (l : list A) (w : W) :
  (forall x w, result (f x w) = Ok tt) ->
  result (for_each l f w) = Ok tt.
Proof.
  intros H. revert w. induction l as [|x l IH]; intros w; [reflexivity|].
  cbn [for_each]. rewrite (bind_ok _ _ _ (H x w)). cbn. apply IH.
Qed.

Lemma for_each_app {A} (f : A -> M W unit) (l1 l2 : list A) (w : W) :
  (forall x w, result (f x w) = Ok tt) ->
  let o1 := for_each l1 f w in
  let o2 := for_each l2 f (final o1) in
  for_each (l1 ++ l2) f w =
  mkOut (result o2) (final o2) (calls o1 ++ calls o2)
        (logged o1 ++ logged o2).
Proof.
  intros H. revert w. induction l1 as [|x l1 IH]; intros w; cbn zeta.
  - cbn. apply out_eta.
  - cbn [app for_each]. rewrite !(bind_ok _ _ _ (H x w)).
    specialize (IH (final (f x w))). cbn zeta in IH. rewrite IH. cbn.
    rewrite !app_assoc. reflexivity.
Qed.

(** A loop whose body always succeeds with calls that do not depend on
    the world makes the calls of its items one after the other. *)
Lemma for_each_static {A} (f : A -> M W unit) (k : A -> list event)
  (l : list A) (w : W) :
  (forall x, In x l -> forall w,
      result (f x w) = Ok tt /\ calls (f x w) = k x) ->
  result (for_each l f w) = Ok tt /\
  calls (for_each l f w) = flat_map k l.
Proof.
  revert w. induction l as [|x l IH]; intros w H; [split; reflexivity|].
  destruct (H x (or_introl eq_refl) w) as [Hr Hc].
  cbn [for_each flat_map]. rewrite (bind_ok _ _ _ Hr). cbn.
  destruct (IH (final (f x w))) as [Hr' Hc'].
  { intros y Hy. apply H. right. exact Hy. }
  rewrite Hr', Hc', Hc. split; reflexivity.
Qed.

(** Whatever a loop does, its calls are calls of its body. *)
Lemma for_each_calls_Forall {A} (P : event -> Prop) (f : A -> M W unit)
  (l : list A) (w : W) :
  (forall x w, Forall P (calls (f x w))) ->
  Forall P (calls (for_each l f w)).
Proof.
  intros H. revert w. induction l as [|x l IH]; intros w; [constructor|].
  cbn [for_each]. unfold bind. specialize (H x w).
  destruct (result (f x w)); cbn; [|exact H].
  apply Forall_app. split; [exact H | apply IH].
Qed.

End Facts.

(** One step of symbolic execution: the primitive at the head of the
    computation is run and the projections of its outcome are reduced. *)
Ltac exec_step :=
  first [ rewrite bind_ret | rewrite bind_raise_now | rewrite bind_emit
        | rewrite bind_command | rewrite bind_query | rewrite bind_log ];
  cbn [result final calls logged].

End ExecFacts.

(** ** The policy name codec *)

Module CodecFacts.
Import PyStr PyStrFacts.

Lemma encode_split category stem :
  has_char underscore category = false ->
  has_char underscore stem = false ->
  split underscore (Codec.encode category stem) = [category; stem; "policy"].
Proof.
  intros Hc Hs. unfold Codec.encode.
  change ("_" ++ stem ++ "_policy")
    with (String underscore (stem ++ "_policy")).
  rewrite split_app by exact Hc.
  change (stem ++ "_policy") with (stem ++ String underscore "policy").
  rewrite split_app by exact Hs. reflexivity.
Qed.

(** C4.  A category and a name without underscore survive the trip
    through the remote name: decoding ["{category}_{name}_policy"] gives
    the pair back.  The names ["foo"], ["a_b"], ["a_b_c_d"] and
    ["a_b_notpolicy"] do not decode. *)
Theorem codec_round_trip :
  (forall category stem,
      has_char underscore category = false ->
      has_char underscore stem = false ->
      Codec.decode (Codec.encode category stem) = Some (category, stem)) /\
  Codec.decode "foo" = None /\
  Codec.decode "a_b" = None /\
  Codec.decode "a_b_c_d" = None /\
  Codec.decode "a_b_notpolicy" = None.
Proof.
  split; [|repeat split; reflexivity].
  intros category stem Hc Hs. unfold Codec.decode.
  rewrite (encode_split _ _ Hc Hs). reflexivity.
Qed.

Lemma codec_round_trip_witness :
  Codec.decode (Codec.encode "team" "read") = Some ("team", "read").
Proof.
  apply (proj1 codec_round_trip); reflexivity.
Defined.

End CodecFacts.

(** ** Policies *)

Module PoliciesFacts.
Import Exec ExecFacts.

Section WithEnv.
Variable W : Type.
Variable E : Env W.

Lemma all_two_arguments (x y : pyval) :
  Py.all [x; y] = Raise (TypeError "all() takes exactly one argument").
Proof. destruct x; reflexivity. Qed.

Lemma run_raises (a : Policies.Args) (w : W) :
  Policies.check_args_integrity a w =
    mkOut (Raise (TypeError "all() takes exactly one argument")) w [] [] /\
  Policies.run E a w =
    mkOut (Raise (TypeError "all() takes exactly one argument")) w [] [].
Proof.
  assert (H : Policies.check_args_integrity a w =
              mkOut (Raise (TypeError "all() takes exactly one argument"))
                    w [] []).
  { unfold Policies.check_args_integrity, bind.
    rewrite all_two_arguments. reflexivity. }
  split; [exact H|].
  unfold Policies.run.
  rewrite bind_raise with (e := TypeError "all() takes exactly one argument");
    rewrite H; reflexivity.
Qed.

(** C2.  [check_args_integrity] raises [TypeError] on every argument
    namespace, because it calls [all] with two positional arguments; so
    [run] raises the same error at once: nothing is logged, no call is
    made (no client is built, nothing is pulled or pushed) and the world
    is as it was. *)
Theorem run_always_raises_TypeError (a : Policies.Args) (w : W) :
  Policies.check_args_integrity a w =
    mkOut (Raise (TypeError "all() takes exactly one argument")) w [] [] /\
  Policies.run E a w =
    mkOut (Raise (TypeError "all() takes exactly one argument")) w [] [].
Proof. exact (run_raises a w). Qed.

Lemma pull_policy_decoded (c : Client) (folder policy : string) (w : W)
  (category stem : string) :
  Codec.decode policy = Some (category, stem) ->
  let dir := OsPath.join folder category in
  let file := OsPath.join dir (stem ++ ".hcl") in
  let w1 := if isdir E dir w then w else makedirs E dir w in
  let text := policy_get E c policy (truncate E file w1) in
  Policies.pull_policy E c folder policy w =
  mkOut (Ok tt) (file_write E file text (truncate E file w1))
        (IsDir dir :: (if isdir E dir w then [] else [MakeDirs dir]) ++
         [OpenWrite file; PolicyGet c policy; FileWrite file text]) [].
Proof.
  intros H. unfold Policies.pull_policy. rewrite H.
  unfold bind, query, command, when. cbn.
  destruct (isdir E (OsPath.join folder category) w); reflexivity.
Qed.

Lemma pull_policy_foreign (c : Client) (folder policy : string) (w : W) :
  Codec.decode policy = None ->
  Policies.pull_policy E c folder policy w =
  mkOut (Ok tt) w []
        [(WARNING, "Policy " ++ policy ++
                   " does not match policy name pattern and will not be pulled"
        )].
Proof.
  intros H. unfold Policies.pull_policy. rewrite H. reflexivity.
Qed.

Lemma pull_policy_total (c : Client) (folder policy : string) (w : W) :
  result (Policies.pull_policy E c folder policy w) = Ok tt.
Proof.
  destruct (Codec.decode policy) as [[category stem]|] eqn:D.
  - rewrite (pull_policy_decoded c folder policy w D). reflexivity.
  - rewrite (pull_policy_foreign c folder policy w D). reflexivity.
Qed.

(** C7.  A pull handles the remote names one after the other and always
    completes.  For a name that decodes to [(category, stem)], it tests
    whether the directory [category] under the policies folder exists,
    creates it when it does not, opens [category/stem.hcl] for writing
    (emptying a file that exists), fetches the policy and writes its text
    into the file.  For a name that does not decode, it logs one warning:
    it makes no call and leaves the world as it was. *)
Theorem pull_mirrors_decodable_names
  (c : Client) (folder : string) (w : W)
  (l1 l2 : list string) (policy : string) :
  policy_list E c w = (l1 ++ policy :: l2)%list ->
  let before := for_each l1 (Policies.pull_policy E c folder) w in
  let wi := final before in
  let step := Policies.pull_policy E c folder policy wi in
  let after := for_each l2 (Policies.pull_policy E c folder) (final step) in
  let o := Policies.policies_pull E c folder w in
  result o = Ok tt /\
  calls o = PolicyList c :: calls before ++ calls step ++ calls after /\
  logged o = (logged before ++ logged step ++ logged after)%list /\
  match Codec.decode policy with
  | Some (category, stem) =>
      let dir := OsPath.join folder category in
      let file := OsPath.join dir (stem ++ ".hcl") in
      let w1 := if isdir E dir wi then wi else makedirs E dir wi in
      let text := policy_get E c policy (truncate E file w1) in
      calls step =
        IsDir dir :: (if isdir E dir wi then [] else [MakeDirs dir]) ++
        [OpenWrite file; PolicyGet c policy; FileWrite file text] /\
      final step = file_write E file text (truncate E file w1) /\
      logged step = []
  | None =>
      calls step = [] /\ final step = wi /\
      logged step =
        [(WARNING, "Policy " ++ policy ++
                   " does not match policy name pattern and will not be pulled"
        )]
  end.
Proof.
  intros Hl before wi step after o.
  assert (Ho : o = mkOut (result after) (final after)
                         (PolicyList c ::
                          calls before ++ calls step ++ calls after)
                         (logged before ++ logged step ++ logged after)%list).
  { unfold o, Policies.policies_pull, bind, query. cbn. rewrite Hl.
    rewrite (for_each_app _ l1 (policy :: l2) w (pull_policy_total c folder)).
    cbn [for_each result final calls logged].
    fold before. fold wi.
    rewrite (bind_ok _ _ _ (pull_policy_total c folder policy wi)).
    fold step. fold after. reflexivity. }
  rewrite Ho. cbn [result calls logged].
  split; [apply for_each_total; apply pull_policy_total|].
  split; [reflexivity|]. split; [reflexivity|].
  destruct (Codec.decode policy) as [[category stem]|] eqn:D.
  - unfold step. rewrite (pull_policy_decoded c folder policy wi D).
    repeat split; reflexivity.
  - unfold step. rewrite (pull_policy_foreign c folder policy wi D).
    repeat split; reflexivity.
Qed.

Lemma read_local_policy_out (acc : list Policies.LocalPolicy)
  (f : string) (w : W) :
  OsPath.parent_segment f <> None ->
  Policies.read_local_policy E acc f w =
  mkOut (Ok (acc ++ [Policies.local_policy_of E w f])%list) w [OpenRead f] [].
Proof.
  unfold Policies.read_local_policy, Policies.local_policy_of.
  destruct (OsPath.parent_segment f); [reflexivity | congruence].
Qed.

(** The loop that reads the local policies, on the paths a two level
    pattern can match. *)
Lemma read_local_loop (files : list string) :
  Forall (fun f => OsPath.parent_segment f <> None) files ->
  forall (acc : list Policies.LocalPolicy) (w : W),
  fold_each files (Policies.read_local_policy E) acc w =
  mkOut (Ok (acc ++ map (Policies.local_policy_of E w) files)%list) w
        (map OpenRead files) [].
Proof.
  induction 1 as [|f files Hf _ IH]; intros acc w.
  - cbn. rewrite app_nil_r. reflexivity.
  - cbn [fold_each map].
    rewrite (bind_eq _ (read_local_policy_out acc f w Hf)), IH.
    cbn [result final calls logged app]. rewrite <- app_assoc. reflexivity.
Qed.

(** What a push does: it lists the remote names, finds and reads the
    local files, deletes every remote name that is not the name of a
    local policy, and sets every local policy. *)
Lemma push_calls (c : Client) (folder : string) (w : W) :
  let distant := policy_list E c w in
  let pattern := OsPath.join folder "*/*.hcl" in
  let files := iglob E pattern w in
  let locals := map (Policies.local_policy_of E w) files in
  Forall (fun f => OsPath.parent_segment f <> None) files ->
  calls (Policies.policies_push E c folder w) =
  ([PolicyList c; Glob pattern] ++ map OpenRead files ++
   map (PolicyDelete c)
       (filter (fun d => negb (PyStr.mem d (map Policies.name locals)))
               distant) ++
   map (fun p => PolicySet c (Policies.name p) (Policies.content p))
       locals)%list.
Proof.
  intros distant pattern files locals Hfiles.
  unfold Policies.policies_push. do 2 exec_step.
  fold distant pattern files.
  rewrite (bind_eq _ (read_local_loop Hfiles [] w)).
  cbn [result final calls logged app]. fold locals.
  rewrite (bind_eq _ (for_each_commands
             (fun d => negb (PyStr.mem d (map Policies.name locals)))
             (PolicyDelete c) (fun d => policy_delete E c d) distant w)).
  cbn [result final calls logged].
  rewrite (for_each_ext _
             (fun p => when ((fun _ => true) p)
                         (command (PolicySet c (Policies.name p)
                                             (Policies.content p))
                                  (policy_set E c (Policies.name p)
                                              (Policies.content p)))));
    [|reflexivity].
  rewrite for_each_commands. cbn [result final calls logged].
  do 4 f_equal.
  clear. induction locals as [|p l IH]; [reflexivity|].
  cbn. rewrite IH. reflexivity.
Qed.

(** So a remote name is deleted as soon as no local file carries it,
    whether it decodes or not. *)
Lemma push_deletes_every_unlisted_name (c : Client) (folder : string) (w : W)
  (d : string) :
  let files := iglob E (OsPath.join folder "*/*.hcl") w in
  Forall (fun f => OsPath.parent_segment f <> None) files ->
  In d (policy_list E c w) ->
  ~ In d (map Policies.name (map (Policies.local_policy_of E w) files)) ->
  In (PolicyDelete c d) (calls (Policies.policies_push E c folder w)).
Proof.
  intros files Hfiles Hd Hnot. rewrite (push_calls c folder w Hfiles).
  apply in_or_app. right. apply in_or_app. right. apply in_or_app. left.
  apply in_map, filter_In. split; [exact Hd|].
  destruct (PyStr.mem d _) eqn:Hm; [|reflexivity].
  apply PyStrFacts.mem_In in Hm. contradiction.
Qed.

End WithEnv.
End PoliciesFacts.

(** ** Auth *)

Module AuthFacts.
Import Exec ExecFacts AuthPlan.
Module VAM := VaultAuthMethod.

Section WithEnv.
Variable W : Type.
Variable E : Env W.
Variable digest : list (string * scalar) -> string.

Lemma disable_out c distant local w :
  Auth.disable_distant_auth_methods E c distant local w =
  mkOut (Ok tt)
        (fold_left (fun w m => if negb (VAM.mem m local)
                               then auth_disable E c (VAM.path m) w else w)
                   distant w)
        (map (disable_call c) (to_disable distant local)) [].
Proof.
  unfold Auth.disable_distant_auth_methods.
  apply (for_each_commands (fun m => negb (VAM.mem m local))
           (disable_call c) (fun m => auth_disable E c (VAM.path m))).
Qed.

Lemma enable_out c local distant w :
  Auth.enable_distant_auth_methods E c local distant w =
  mkOut (Ok tt)
        (fold_left (fun w m =>
                      if negb (VAM.mem m distant)
                      then auth_enable E c (VAM.type m) (VAM.path m)
                                       (VAM.description m) w
                      else w)
                   local w)
        (map (enable_call c) (to_enable local distant)) [].
Proof.
  unfold Auth.enable_distant_auth_methods.
  apply (for_each_commands (fun m => negb (VAM.mem m distant))
           (enable_call c)
           (fun m => auth_enable E c (VAM.type m) (VAM.path m)
                                 (VAM.description m))).
Qed.

Lemma tune_out c l d w :
  has_key "default_lease_ttl" l -> has_key "max_lease_ttl" l ->
  Auth.tune_auth_method E c l d w =
  mkOut (Ok tt)
        (auth_tune E c (VAM.path l) (tuning_value "default_lease_ttl" l)
                   (tuning_value "max_lease_ttl" l) (VAM.description l) w)
        [tune_call c l] [].
Proof.
  unfold has_key, Auth.tune_auth_method, tune_call, tuning_value, Auth.getitem.
  intros H1 H2.
  destruct (Py.dict_get "default_lease_ttl" (VAM.tuning l)); [|congruence].
  destruct (Py.dict_get "max_lease_ttl" (VAM.tuning l)); [|congruence].
  reflexivity.
Qed.

Lemma tune_calls_are_tunes c l d w :
  Forall (fun e => is_tune e = true) (calls (Auth.tune_auth_method E c l d w)).
Proof.
  unfold Auth.tune_auth_method, Auth.getitem.
  destruct (Py.dict_get "default_lease_ttl" (VAM.tuning l)); [|constructor].
  destruct (Py.dict_get "max_lease_ttl" (VAM.tuning l)); [|constructor].
  repeat constructor.
Qed.

Lemma find_calls_are_tunes c distant local w :
  Forall (fun e => is_tune e = true)
         (calls (Auth.find_auth_methods_to_tune E digest c distant local w)).
Proof.
  unfold Auth.find_auth_methods_to_tune.
  apply for_each_calls_Forall. intros d w1.
  apply for_each_calls_Forall. intros l w2.
  destruct (VAM.eqb d l); cbn; [|constructor].
  destruct (negb (Auth.hash_of digest d =? Auth.hash_of digest l)%string);
    cbn; [apply tune_calls_are_tunes | constructor].
Qed.


Lemma configure_calls_are_configurations c m w :
  Forall (fun e => is_configuration e = true)
         (calls (Auth.configure_auth_method E c m w)).
Proof.
  unfold Auth.configure_auth_method.
  destruct (VAM.has_auth_config m); [|constructor].
  destruct (VAM.type m =? "ldap")%string; [repeat constructor|].
  destruct (VAM.type m =? "approle")%string; repeat constructor.
Qed.

(** The phases of a push, for a configuration file that loads and lists
    its auth methods. *)
Section Phases.
Variables (c : Client) (config_dir : string) (w : W).
Variables (cf : Conf) (decls : list AuthDecl).
Hypothesis Hload :
  load_yaml E (OsPath.join config_dir "auth-methods.yml") w = Loaded cf.
Hypothesis Hdecls : auth_methods cf = Some decls.

Lemma disabled_out :
  (disabled E c w cf decls) =
  mkOut (Ok tt) (final (disabled E c w cf decls))
        (if Auth.deletion_enabled cf
         then map (disable_call c)
                  (to_disable (distant E c w) (local decls))
         else []) [].
Proof.
  unfold disabled. destruct (Auth.deletion_enabled cf); cbn; [|reflexivity].
  rewrite disable_out. reflexivity.
Qed.

Lemma disabled_out_calls :
  calls (disabled E c w cf decls) =
  if Auth.deletion_enabled cf
  then map (disable_call c) (to_disable (distant E c w) (local decls))
  else [].
Proof. rewrite disabled_out at 1. reflexivity. Qed.

Lemma enabled_out :
  (enabled E c w cf decls) =
  mkOut (Ok tt) (final (enabled E c w cf decls))
        (map (enable_call c) (to_enable (local decls) (distant E c w))) [].
Proof. unfold enabled. rewrite enable_out. reflexivity. Qed.

Lemma enabled_out_calls :
  calls (enabled E c w cf decls) =
  map (enable_call c) (to_enable (local decls) (distant E c w)).
Proof. rewrite enabled_out at 1. reflexivity. Qed.

Lemma read_configuration_out :
  Auth.read_configuration E config_dir w =
  mkOut (Ok (Some cf)) w
        [LoadYaml (OsPath.join config_dir "auth-methods.yml")] [].
Proof.
  unfold Auth.read_configuration, bind, query.
  cbn [result final calls logged]. rewrite Hload. reflexivity.
Qed.

Lemma get_distant_out (w' : W) :
  Auth.get_distant_auth_methods E c w' =
  mkOut (Ok (map Auth.of_raw (auth_list E c w'))) w' [AuthList c] [].
Proof. reflexivity. Qed.

Lemma get_local_out (w' : W) :
  Auth.get_local_auth_methods (Some cf) w' = mkOut (Ok (local decls)) w' [] [].
Proof.
  unfold Auth.get_local_auth_methods. rewrite Hdecls. reflexivity.
Qed.

Lemma auth_push_calls :
  calls (Auth.auth_push E digest c config_dir w) =
  ([LoadYaml (OsPath.join config_dir "auth-methods.yml"); AuthList c] ++
   calls (disabled E c w cf decls) ++ calls (enabled E c w cf decls) ++
   [AuthList c] ++ calls (tuned E digest c w cf decls) ++
   match result (tuned E digest c w cf decls) with
   | Ok _ => calls (configured E digest c w cf decls)
   | Raise _ => []
   end)%list.
Proof.
  unfold Auth.auth_push.
  rewrite (bind_eq _ read_configuration_out).
  rewrite (bind_eq _ (get_distant_out w)).
  rewrite (bind_eq _ (get_local_out w)).
  fold (distant E c w). fold (disabled E c w cf decls).
  rewrite (bind_eq _ disabled_out).
  fold (enabled E c w cf decls).
  rewrite (bind_eq _ enabled_out).
  rewrite (bind_eq _ (get_distant_out (final (enabled E c w cf decls)))).
  fold (refreshed E c w cf decls).
  cbn [result final calls logged app].
  rewrite <- disabled_out_calls, <- enabled_out_calls.
  unfold bind. fold (tuned E digest c w cf decls).
  destruct (result (tuned E digest c w cf decls)); cbn [calls];
    [fold (configured E digest c w cf decls)|];
    rewrite ?app_nil_r; reflexivity.
Qed.

End Phases.

(** A push whose configuration does not load, or lists no auth methods,
    stops before its first mutating call. *)
Lemma auth_push_calls_short c config_dir w :
  (forall cf decls,
      load_yaml E (OsPath.join config_dir "auth-methods.yml") w = Loaded cf ->
      auth_methods cf <> Some decls) ->
  calls (Auth.auth_push E digest c config_dir w) =
    [LoadYaml (OsPath.join config_dir "auth-methods.yml")] \/
  calls (Auth.auth_push E digest c config_dir w) =
    [LoadYaml (OsPath.join config_dir "auth-methods.yml"); AuthList c].
Proof.
  intros Hno. unfold Auth.auth_push.
  destruct (load_yaml E (OsPath.join config_dir "auth-methods.yml") w)
    as [| |cf] eqn:Hload.
  - left.
    assert (H : Auth.read_configuration E config_dir w =
                mkOut (Raise (FileNotFoundError
                         (OsPath.join config_dir "auth-methods.yml")))
                      w [LoadYaml (OsPath.join config_dir "auth-methods.yml")]
                      []).
    { unfold Auth.read_configuration, bind, query.
      cbn [result final calls logged]. rewrite Hload. reflexivity. }
    rewrite (bind_eq_raise _ H). reflexivity.
  - right.
    assert (H : Auth.read_configuration E config_dir w =
                mkOut (Ok None) w
                      [LoadYaml (OsPath.join config_dir "auth-methods.yml")]
                      [(CRITICAL, "Impossible to load conf file: ")]).
    { unfold Auth.read_configuration, bind, query.
      cbn [result final calls logged]. rewrite Hload. reflexivity. }
    rewrite (bind_eq _ H).
    rewrite (bind_eq _ (get_distant_out c w)).
    assert (H' : Auth.get_local_auth_methods None w =
                 mkOut (Raise (TypeError
                          "'NoneType' object is not subscriptable")) w [] [])
      by reflexivity.
    rewrite (bind_eq_raise _ H'). reflexivity.
  - right.
    assert (H : Auth.read_configuration E config_dir w =
                mkOut (Ok (Some cf)) w
                      [LoadYaml (OsPath.join config_dir "auth-methods.yml")]
                      []).
    { unfold Auth.read_configuration, bind, query.
      cbn [result final calls logged]. rewrite Hload. reflexivity. }
    rewrite (bind_eq _ H).
    rewrite (bind_eq _ (get_distant_out c w)).
    assert (H' : Auth.get_local_auth_methods (Some cf) w =
                 mkOut (Raise (KeyError "auth-methods")) w [] []).
    { unfold Auth.get_local_auth_methods.
      destruct (auth_methods cf) as [decls|] eqn:Hd; [|reflexivity].
      exfalso. exact (Hno cf decls eq_refl Hd). }
    rewrite (bind_eq_raise _ H'). reflexivity.
Qed.

Lemma filter_none (p q : event -> bool) (l : list event) :
  (forall e, q e = true -> p e = false) ->
  Forall (fun e => q e = true) l -> filter p l = [].
Proof.
  intros Hpq H. induction H as [|e l He _ IH]; [reflexivity|].
  cbn. rewrite (Hpq e He). exact IH.
Qed.

Lemma filter_all (p : event -> bool) (l : list event) :
  Forall (fun e => p e = true) l -> filter p l = l.
Proof.
  intros H. induction H as [|e l He _ IH]; [reflexivity|].
  cbn. rewrite He, IH. reflexivity.
Qed.

Lemma disabled_calls_are_disables c w cf decls :
  Forall (fun e => is_disable e = true) (calls (disabled E c w cf decls)).
Proof.
  rewrite disabled_out_calls. destruct (Auth.deletion_enabled cf);
    [|constructor].
  apply Forall_map, Forall_forall. reflexivity.
Qed.

Lemma enabled_calls_are_enables c w cf decls :
  Forall (fun e => is_enable e = true) (calls (enabled E c w cf decls)).
Proof.
  rewrite enabled_out_calls. apply Forall_map, Forall_forall. reflexivity.
Qed.

Lemma tuned_calls_are_tunes c w cf decls :
  Forall (fun e => is_tune e = true) (calls (tuned E digest c w cf decls)).
Proof. apply find_calls_are_tunes. Qed.

Lemma configured_calls_are_configurations c w cf decls :
  Forall (fun e => is_configuration e = true)
         (match result (tuned E digest c w cf decls) with
          | Ok _ => calls (configured E digest c w cf decls)
          | Raise _ => []
          end).
Proof.
  destruct (result (tuned E digest c w cf decls)); [|constructor].
  apply for_each_calls_Forall. intros m w'.
  apply configure_calls_are_configurations.
Qed.

(** C6.  With a configuration file that loads and lists its auth
    methods, the calls of a push are, in this order: the load of the file
    and the first listing; the disable calls; the enable calls; the
    second listing; the tune calls; the method specific configuration
    calls.  The tune calls are those of the tuning pass run on the second
    listing, which is taken from the world as the disable and enable
    calls leave it. *)
Theorem push_phases_in_order c config_dir w cf decls :
  load_yaml E (OsPath.join config_dir "auth-methods.yml") w = Loaded cf ->
  auth_methods cf = Some decls ->
  exists ds es ts cs : list event,
    calls (Auth.auth_push E digest c config_dir w) =
      ([LoadYaml (OsPath.join config_dir "auth-methods.yml"); AuthList c] ++
       ds ++ es ++ [AuthList c] ++ ts ++ cs)%list /\
    Forall (fun e => is_disable e = true) ds /\
    Forall (fun e => is_enable e = true) es /\
    Forall (fun e => is_tune e = true) ts /\
    Forall (fun e => is_configuration e = true) cs /\
    (Auth.deletion_enabled cf = false -> ds = []) /\
    let w2 := final (enabled E c w cf decls) in
    w2 = fold_left (fun w' m =>
                      if negb (VAM.mem m (distant E c w))
                      then auth_enable E c (VAM.type m) (VAM.path m)
                                       (VAM.description m) w'
                      else w') (local decls)
           (if Auth.deletion_enabled cf
            then fold_left (fun w' m =>
                              if negb (VAM.mem m (local decls))
                              then auth_disable E c (VAM.path m) w' else w')
                           (distant E c w) w
            else w) /\
    ts = calls (Auth.find_auth_methods_to_tune E digest c
                  (map Auth.of_raw (auth_list E c w2)) (local decls) w2).
Proof.
  intros Hload Hdecls.
  exists (calls (disabled E c w cf decls)), (calls (enabled E c w cf decls)),
         (calls (tuned E digest c w cf decls)),
         (match result (tuned E digest c w cf decls) with
          | Ok _ => calls (configured E digest c w cf decls)
          | Raise _ => []
          end).
  split; [apply (auth_push_calls c config_dir w Hload Hdecls)|].
  split; [apply disabled_calls_are_disables|].
  split; [apply enabled_calls_are_enables|].
  split; [apply tuned_calls_are_tunes|].
  split; [apply configured_calls_are_configurations|].
  split.
  { intros Hoff. rewrite disabled_out_calls, Hoff. reflexivity. }
  split; [|reflexivity].
  unfold enabled. rewrite enable_out. cbn [final]. f_equal.
  unfold disabled. destruct (Auth.deletion_enabled cf); [|reflexivity].
  cbn [when]. rewrite disable_out. reflexivity.
Qed.

(** The disable calls of a push, by the outcome of the test of lines
    223-224. *)
Lemma disable_follows_guard c config_dir w :
  ((forall cf,
       load_yaml E (OsPath.join config_dir "auth-methods.yml") w = Loaded cf ->
       Auth.deletion_enabled cf = false) ->
   filter is_disable (calls (Auth.auth_push E digest c config_dir w)) = []) /\
  (forall cf decls,
      load_yaml E (OsPath.join config_dir "auth-methods.yml") w = Loaded cf ->
      auth_methods cf = Some decls ->
      Auth.deletion_enabled cf = true ->
      filter is_disable (calls (Auth.auth_push E digest c config_dir w)) =
      map (disable_call c) (to_disable (distant E c w) (local decls))).
Proof.
  assert (Hrest : forall cf decls,
             filter is_disable
               (calls (enabled E c w cf decls) ++ [AuthList c] ++
                calls (tuned E digest c w cf decls) ++
                match result (tuned E digest c w cf decls) with
                | Ok _ => calls (configured E digest c w cf decls)
                | Raise _ => []
                end) = []).
  { intros cf decls. rewrite !filter_app.
    rewrite (filter_none is_disable is_enable
               (l := calls (enabled E c w cf decls)));
      [|intros []; cbn; congruence | apply enabled_calls_are_enables].
    rewrite (filter_none is_disable is_tune
               (l := calls (tuned E digest c w cf decls)));
      [|intros []; cbn; congruence | apply tuned_calls_are_tunes].
    rewrite (filter_none is_disable is_configuration
               (l := match result (tuned E digest c w cf decls) with
                     | Ok _ => calls (configured E digest c w cf decls)
                     | Raise _ => []
                     end));
      [reflexivity | intros []; cbn; congruence
      | apply configured_calls_are_configurations]. }
  split.
  - intros Hoff.
    destruct (load_yaml E (OsPath.join config_dir "auth-methods.yml") w)
      as [| |cf] eqn:Hload;
      [| |destruct (auth_methods cf) as [decls|] eqn:Hdecls].
    3: { rewrite (auth_push_calls c config_dir w Hload Hdecls).
         rewrite filter_app, filter_app, Hrest, app_nil_r.
         rewrite disabled_out_calls, (Hoff cf eq_refl). reflexivity. }
    all: destruct (auth_push_calls_short c config_dir w) as [H|H];
      [ intros cf' decls' Hl; rewrite Hload in Hl;
        try discriminate; injection Hl as <-; congruence
      | rewrite H; reflexivity | rewrite H; reflexivity ].
  - intros cf decls Hload Hdecls Hon.
    rewrite (auth_push_calls c config_dir w Hload Hdecls).
    rewrite filter_app, filter_app, Hrest, app_nil_r.
    rewrite disabled_out_calls, Hon. cbn [filter is_disable app].
    apply filter_all, Forall_map, Forall_forall. reflexivity.
Qed.

(** The test of lines 223-224 by the value of the entry: it fails when
    the entry is absent or holds a false value, and passes when the entry
    holds a true value. *)
Lemma deletion_enabled_by_value (cf : Conf) :
  (auth_methods_deletion cf = None -> Auth.deletion_enabled cf = false) /\
  (forall v, auth_methods_deletion cf = Some v ->
             Auth.deletion_enabled cf = Py.truthy_scalar v).
Proof.
  unfold Auth.deletion_enabled. split.
  - intros ->. reflexivity.
  - intros v ->. reflexivity.
Qed.

(** C3.  A push disables nothing unless the configuration file loads
    with a true [auth-methods-deletion] entry.  When the entry is absent,
    or present with a false value ([false], and likewise [null], [0] or
    the empty string), no disable call is made, whatever the listing and
    the declaration are, also for listed mounts that are not declared.
    When the entry is present with a true value (and the file lists its
    auth methods) the disable calls are exactly those for the listed
    mounts that are not declared, in the order of the listing. *)
Theorem disable_is_opt_in c config_dir w :
  ((forall cf,
       load_yaml E (OsPath.join config_dir "auth-methods.yml") w = Loaded cf ->
       auth_methods_deletion cf = None \/
       exists v, auth_methods_deletion cf = Some v /\
                 Py.truthy_scalar v = false) ->
   filter is_disable (calls (Auth.auth_push E digest c config_dir w)) = []) /\
  (forall cf decls v,
      load_yaml E (OsPath.join config_dir "auth-methods.yml") w = Loaded cf ->
      auth_methods cf = Some decls ->
      auth_methods_deletion cf = Some v ->
      Py.truthy_scalar v = true ->
      filter is_disable (calls (Auth.auth_push E digest c config_dir w)) =
      map (disable_call c) (to_disable (distant E c w) (local decls))).
Proof.
  destruct (disable_follows_guard c config_dir w) as [Hoff Hon]. split.
  - intros Hflag. apply Hoff. intros cf Hload.
    destruct (deletion_enabled_by_value cf) as [Hnone Hsome].
    destruct (Hflag cf Hload) as [Habsent|(v & Hv & Hfalse)].
    + exact (Hnone Habsent).
    + rewrite (Hsome v Hv). exact Hfalse.
  - intros cf decls v Hload Hdecls Hv Htrue.
    apply (Hon cf decls Hload Hdecls).
    rewrite (proj2 (deletion_enabled_by_value cf) v Hv). exact Htrue.
Qed.

End WithEnv.
End AuthFacts.

(** ** Equality of auth mounts *)

Module VaultAuthMethodFacts.
Import Exec ExecFacts.
Module VAM := VaultAuthMethod.

Lemma eqb_iff (a b : VAM.t) :
  VAM.eqb a b = true <-> VAM.type a = VAM.type b /\ VAM.path a = VAM.path b.
Proof.
  unfold VAM.eqb. rewrite andb_true_iff, !String.eqb_eq. tauto.
Qed.

Lemma eqb_same_identity_r (a b x : VAM.t) :
  VAM.type a = VAM.type b -> VAM.path a = VAM.path b ->
  VAM.eqb x a = VAM.eqb x b.
Proof. unfold VAM.eqb. intros -> ->. reflexivity. Qed.

Lemma eqb_same_identity_l (a b x : VAM.t) :
  VAM.type a = VAM.type b -> VAM.path a = VAM.path b ->
  VAM.eqb a x = VAM.eqb b x.
Proof. unfold VAM.eqb. intros -> ->. reflexivity. Qed.

Lemma mem_same_identity (a b : VAM.t) (l : list VAM.t) :
  VAM.type a = VAM.type b -> VAM.path a = VAM.path b ->
  VAM.mem a l = VAM.mem b l.
Proof.
  intros Ht Hp. unfold VAM.mem. induction l as [|x l IH]; [reflexivity|].
  cbn. rewrite IH, (eqb_same_identity_r a b x Ht Hp). reflexivity.
Qed.

Lemma mem_replace (a b x : VAM.t) (l1 l2 : list VAM.t) :
  VAM.type a = VAM.type b -> VAM.path a = VAM.path b ->
  VAM.mem x (l1 ++ a :: l2) = VAM.mem x (l1 ++ b :: l2).
Proof.
  intros Ht Hp. unfold VAM.mem. rewrite !existsb_app. cbn.
  rewrite (eqb_same_identity_l a b x Ht Hp). reflexivity.
Qed.

Section WithEnv.
Variable W : Type.
Variable E : Env W.

(** C8.  Mounts are equal exactly when their types and paths are.  Two
    mounts [a] and [b] of the same type and path are equal whatever their
    descriptions, tunings and method configurations are, and one can
    stand for the other in every test the diff makes: the comparison with
    a third mount (the test that matches a listed with a declared mount
    for tuning), membership in a list, and membership of a third mount
    in a list that holds it.  So the pass that disables and the pass that
    enables act the same when [a] is replaced by [b] in the list they
    test against. *)
Theorem equality_ignores_mutable_fields
  (ty p : string) (d1 d2 : string) (t1 t2 : Py.dict scalar)
  (g1 g2 : option (Py.dict scalar)) :
  let a := VAM.mk ty p d1 t1 g1 in
  let b := VAM.mk ty p d2 t2 g2 in
  (forall x y, VAM.eqb x y = true <->
               VAM.type x = VAM.type y /\ VAM.path x = VAM.path y) /\
  VAM.eqb a b = true /\
  (forall x, VAM.eqb x a = VAM.eqb x b /\ VAM.eqb a x = VAM.eqb b x) /\
  (forall l, VAM.mem a l = VAM.mem b l) /\
  (forall x l1 l2, VAM.mem x (l1 ++ a :: l2) = VAM.mem x (l1 ++ b :: l2)) /\
  (forall c distant l1 l2 w,
      Auth.disable_distant_auth_methods E c distant (l1 ++ a :: l2) w =
      Auth.disable_distant_auth_methods E c distant (l1 ++ b :: l2) w) /\
  (forall c local l1 l2 w,
      Auth.enable_distant_auth_methods E c local (l1 ++ a :: l2) w =
      Auth.enable_distant_auth_methods E c local (l1 ++ b :: l2) w).
Proof.
  intros a b.
  assert (Ht : VAM.type a = VAM.type b) by reflexivity.
  assert (Hp : VAM.path a = VAM.path b) by reflexivity.
  split; [exact eqb_iff|].
  split; [apply eqb_iff; split; assumption|].
  split.
  { intros x. split;
      [apply eqb_same_identity_r | apply eqb_same_identity_l]; assumption. }
  split; [intros l; apply mem_same_identity; assumption|].
  split; [intros x l1 l2; apply mem_replace; assumption|].
  split.
  - intros c distant l1 l2 w. unfold Auth.disable_distant_auth_methods.
    apply for_each_ext. intros x _ w'.
    rewrite (mem_replace a b x l1 l2 Ht Hp). reflexivity.
  - intros c local l1 l2 w. unfold Auth.enable_distant_auth_methods.
    apply for_each_ext. intros x _ w'.
    rewrite (mem_replace a b x l1 l2 Ht Hp). reflexivity.
Qed.

End WithEnv.
End VaultAuthMethodFacts.

(** ** Dicts *)

Module DictFacts.

Section Dict.
Variable V : Type.
Implicit Types (d : Py.dict V) (k : string) (v : V).

Lemma get_set d k k' v :
  Py.dict_get k' (Py.dict_set k v d) =
  if String.eqb k' k then Some v else Py.dict_get k' d.
Proof.
  induction d as [|[k0 v0] d IH]; cbn.
  - destruct (String.eqb_spec k' k); reflexivity.
  - destruct (String.eqb_spec k k0) as [->|Hk]; cbn.
    + destruct (String.eqb_spec k' k0); reflexivity.
    + destruct (String.eqb_spec k' k0) as [->|Hk'].
      * destruct (String.eqb_spec k0 k); [congruence|reflexivity].
      * exact IH.
Qed.

Lemma keys_set d k v :
  Py.dict_keys (Py.dict_set k v d) =
  if PyStr.mem k (Py.dict_keys d) then Py.dict_keys d
  else (Py.dict_keys d ++ [k])%list.
Proof.
  unfold Py.dict_keys, PyStr.mem.
  induction d as [|[k0 v0] d IH]; cbn; [reflexivity|].
  destruct (String.eqb_spec k k0) as [->|Hk]; cbn; [reflexivity|].
  rewrite IH. destruct (existsb (String.eqb k) (map fst d)); reflexivity.
Qed.



Lemma filled_keys_NoDup f l : forall d,
  NoDup (Py.dict_keys d) -> NoDup (Py.dict_keys (Py.filled f l d)).
Proof.
  induction l as [|x l IH]; cbn; intros d Hd; [exact Hd|].
  apply IH. rewrite keys_set.
  destruct (PyStr.mem x (Py.dict_keys d)) eqn:Hx; [exact Hd|].
  apply NoDup_app; [exact Hd | repeat constructor; cbn; tauto |].
  intros y Hy [<-|[]]. apply PyStrFacts.mem_In in Hy. congruence.
Qed.

Lemma filled_keys_In f l : forall d k,
  In k (Py.dict_keys (Py.filled f l d)) <-> In k (Py.dict_keys d) \/ In k l.
Proof.
  induction l as [|x l IH]; intros d k; [cbn; tauto|].
  change (Py.filled f (x :: l) d) with (Py.filled f l (Py.dict_set x (f x) d)).
  rewrite IH, keys_set.
  destruct (PyStr.mem x (Py.dict_keys d)) eqn:Hx.
  - apply PyStrFacts.mem_In in Hx. cbn. split; [tauto|].
    intros [H|[<-|H]]; tauto.
  - rewrite in_app_iff. cbn. tauto.
Qed.


End Dict.
End DictFacts.

(** ** KV *)

Module KVFacts.
Import Exec ExecFacts DictFacts.

Section WithEnv.
Variable W : Type.
Variable E : Env W.
Variable environ : Py.dict string.

Lemma environ_get_in k :
  KV.in_environ environ k = true ->
  exists v, Py.dict_get k environ = Some v.
Proof.
  unfold KV.in_environ. destruct (Py.dict_get k environ); [eauto|discriminate].
Qed.

Lemma check_env_vars_ok (w : W) :
  forallb (KV.in_environ environ) KV.needed_env_vars = true ->
  KV.check_env_vars environ w = mkOut (Ok true) w [] [].
Proof.
  intros H. unfold KV.check_env_vars. rewrite H. cbn [negb].
  cbn in H. apply andb_true_iff in H as [H _].
  destruct (environ_get_in _ H) as [v Hv].
  unfold bind, KV.environ_get. rewrite Hv. reflexivity.
Qed.


(** The loop of [read_from_vault]: one read per listed path, the
    documents collected in a dict. *)
Lemma read_loop c (l : list string) : forall (d : Py.dict secret) (w : W),
  fold_each l (fun kv_full kv =>
    doc <- query (ReadSecret c kv) (read_secret E c kv) ;;
    ret (Py.dict_set kv doc kv_full)) d w =
  mkOut (Ok (Py.filled (fun k => read_secret E c k w) l d)) w
        (map (ReadSecret c) l) [].
Proof.
  induction l as [|x l IH]; intros d w; [reflexivity|].
  cbn [fold_each]. unfold bind at 1. cbn. rewrite IH. reflexivity.
Qed.


Lemma read_from_vault_out (a : KV.Args) (w : W) root rest :
  forallb (KV.in_environ environ) KV.needed_env_vars = true ->
  KV.export a = Some (root :: rest) ->
  let src := KV.source_client a in
  let w1 := authenticate E src None w in
  let leaves := get_secrets_tree E src root w1 in
  KV.read_from_vault E environ a w =
  mkOut (Ok (Py.filled (fun p => read_secret E src p w1) leaves [])) w1
        ([NewClient src; Authenticate src None; GetSecretsTree src root] ++
         map (ReadSecret src) leaves) [].
Proof.
  intros Henv Hexp src w1 leaves. cbn in Henv.
  apply andb_true_iff in Henv as [H1 Henv].
  apply andb_true_iff in Henv as [_ Henv].
  apply andb_true_iff in Henv as [H3 _].
  destruct (environ_get_in _ H1) as [v1 Hv1].
  destruct (environ_get_in _ H3) as [v3 Hv3].
  unfold KV.read_from_vault, KV.export0, KV.environ_get.
  rewrite Hexp, Hv1, Hv3. fold src. cbn [lift].
  do 2 exec_step. fold w1. do 4 exec_step. fold leaves.
  rewrite read_loop. reflexivity.
Qed.



End WithEnv.
End KVFacts.

(** ** Missing inputs *)

Module RunFacts.
Import Exec ExecFacts.

Section WithEnv.
Variable W : Type.
Variable E : Env W.
Variable digest : list (string * scalar) -> string.




End WithEnv.
End RunFacts.

(** ** The modules on concrete worlds *)

Module Scenarios.
Import Exec Worlds.

(** C1.  On [policy_world], whose remote policy [custom_unmanaged] does
    not decode, a push calls delete on [custom_unmanaged] (and on
    [obsolete_deploy_policy]), and the policy is gone from the server
    afterwards. *)
Theorem push_deletes_a_name_that_does_not_decode :
  Codec.decode "custom_unmanaged" = None /\
  calls (Policies.policies_push Sim.env client "conf/policies" policy_world) =
    [PolicyList client; Glob "conf/policies/*/*.hcl";
     OpenRead "conf/policies/team/read.hcl";
     OpenRead "conf/policies/team/write.hcl";
     PolicyDelete client "obsolete_deploy_policy";
     PolicyDelete client "custom_unmanaged";
     PolicySet client "team_read_policy" "path r1";
     PolicySet client "team_write_policy" "path w1"] /\
  Sim.policies
    (final (Policies.policies_push Sim.env client "conf/policies"
                                   policy_world)) =
    [("team_read_policy", "path r1"); ("team_write_policy", "path w1")].
Proof. repeat split; vm_compute; reflexivity. Qed.

Lemma pull_mirrors_decodable_names_witness :
  policy_list Sim.env client policy_world =
    ["team_read_policy"; "obsolete_deploy_policy"; "custom_unmanaged"] /\
  calls (Policies.pull_policy Sim.env client "conf/policies"
           "obsolete_deploy_policy"
           (final (Policies.pull_policy Sim.env client "conf/policies"
                     "team_read_policy" policy_world))) =
    [IsDir "conf/policies/obsolete"; MakeDirs "conf/policies/obsolete";
     OpenWrite "conf/policies/obsolete/deploy.hcl";
     PolicyGet client "obsolete_deploy_policy";
     FileWrite "conf/policies/obsolete/deploy.hcl" "path d"].
Proof.
  split; [reflexivity|].
  exact (proj1 (proj2 (proj2 (proj2
           (PoliciesFacts.pull_mirrors_decodable_names
              Sim.env client "conf/policies" policy_world
              ["team_read_policy"] ["custom_unmanaged"]
              "obsolete_deploy_policy" eq_refl))))).
Defined.


Lemma push_phases_in_order_witness :
  exists ds es ts cs : list event,
    calls (Auth.auth_push Sim.env Sim.digest client "conf"
                          (auth_world (Some (SBool true)))) =
      ([LoadYaml "conf/auth-methods.yml"; AuthList client] ++
       ds ++ es ++ [AuthList client] ++ ts ++ cs)%list /\
    Forall (fun e => AuthPlan.is_disable e = true) ds /\
    Forall (fun e => AuthPlan.is_enable e = true) es /\
    Forall (fun e => AuthPlan.is_tune e = true) ts /\
    Forall (fun e => AuthPlan.is_configuration e = true) cs.
Proof.
  destruct (AuthFacts.push_phases_in_order Sim.env Sim.digest client "conf"
              (auth_world (Some (SBool true)))
              (cf := mkConf (Some declared) (Some (SBool true)))
              (decls := declared) eq_refl eq_refl)
    as (ds & es & ts & cs & H1 & H2 & H3 & H4 & H5 & _).
  exists ds, es, ts, cs. repeat split; assumption.
Defined.

Lemma disable_is_opt_in_witness :
  filter AuthPlan.is_disable
         (calls (Auth.auth_push Sim.env Sim.digest client "conf"
                                (auth_world None))) = [] /\
  filter AuthPlan.is_disable
         (calls (Auth.auth_push Sim.env Sim.digest client "conf"
                                (auth_world (Some (SBool false))))) = [] /\
  filter AuthPlan.is_disable
         (calls (Auth.auth_push Sim.env Sim.digest client "conf"
                                (auth_world (Some (SBool true))))) =
  [AuthDisable client "token"].
Proof.
  split; [|split].
  - apply (proj1 (AuthFacts.disable_is_opt_in Sim.env Sim.digest client
                    "conf" (auth_world None))).
    intros cf H. injection H as <-. left. reflexivity.
  - apply (proj1 (AuthFacts.disable_is_opt_in Sim.env Sim.digest client
                    "conf" (auth_world (Some (SBool false))))).
    intros cf H. injection H as <-. right. exists (SBool false).
    split; reflexivity.
  - exact (proj2 (AuthFacts.disable_is_opt_in Sim.env Sim.digest client
                    "conf" (auth_world (Some (SBool true))))
                 (mkConf (Some declared) (Some (SBool true))) declared
                 (SBool true) eq_refl eq_refl eq_refl eq_refl).
Defined.



End Scenarios.

(** * Further properties *)

(** ** Splitting and joining *)

Module SegmentFacts.
Import PyStr PyStrFacts.

Lemma append_assoc (a b c : string) : ((a ++ b) ++ c = a ++ b ++ c)%string.
Proof. induction a as [|ch a IH]; cbn; [reflexivity|]. rewrite IH. reflexivity. Qed.

Lemma append_nil_r (a : string) : (a ++ "" = a)%string.
Proof. induction a as [|ch a IH]; cbn; [reflexivity|]. rewrite IH. reflexivity. Qed.

(** The segments of [a + sep + b] are those of [a] followed by those of
    [b]. *)
Lemma split_append sep (a b : string) :
  split sep (a ++ String sep b) = (split sep a ++ split sep b)%list.
Proof.
  induction a as [|ch a IH]; cbn.
  - rewrite Ascii.eqb_refl. reflexivity.
  - rewrite IH. destruct (Ascii.eqb ch sep); [reflexivity|].
    destruct (split sep a) as [|h t] eqn:E; [|reflexivity].
    exfalso. exact (split_nonempty _ _ E).
Qed.

Lemma split_has_sep sep (s : string) :
  has_char sep s = true -> 2 <= List.length (split sep s).
Proof.
  induction s as [|ch s IH]; cbn; [discriminate|].
  destruct (Ascii.eqb ch sep); cbn.
  - intros _. pose proof (split_nonempty sep s).
    destruct (split sep s); [congruence | cbn; lia].
  - intros H. specialize (IH H).
    destruct (split sep s); cbn in *; lia.
Qed.

Lemma split_length_pos sep (s : string) : 1 <= List.length (split sep s).
Proof.
  pose proof (split_nonempty sep s). destruct (split sep s); [congruence|].
  cbn. lia.
Qed.

(** No segment holds the separator. *)
Lemma split_segments sep (s : string) :
  Forall (fun x => has_char sep x = false) (split sep s).
Proof.
  induction s as [|ch s IH]; cbn; [repeat constructor|].
  destruct (Ascii.eqb ch sep) eqn:E; [constructor; [reflexivity | exact IH]|].
  destruct (split sep s) as [|h t]; [repeat constructor; cbn; rewrite E; reflexivity|].
  inversion IH as [|? ? Hh Ht]; subst. constructor; [|exact Ht].
  cbn. rewrite E, Hh. reflexivity.
Qed.

(** [sep.join(s.split(sep)) == s] *)
Lemma concat_split sep (s : string) :
  String.concat (String sep "") (split sep s) = s.
Proof.
  induction s as [|ch s IH]; cbn; [reflexivity|].
  pose proof (split_nonempty sep s) as Hne.
  destruct (Ascii.eqb_spec ch sep) as [->|Hch].
  - destruct (split sep s) as [|h t]; [congruence|].
    cbn in *. rewrite IH. reflexivity.
  - destruct (split sep s) as [|h t]; [congruence|].
    destruct t; cbn in *; rewrite <- IH; reflexivity.
Qed.

End SegmentFacts.

(** ** More on the policy name codec *)

Module CodecMore.
Import PyStr PyStrFacts SegmentFacts.

Lemma decode_split (policy category stem : string) :
  Codec.decode policy = Some (category, stem) ->
  split underscore policy = [category; stem; "policy"].
Proof.
  unfold Codec.decode.
  destruct (split underscore policy) as [|a [|b [|d [|e t]]]];
    try discriminate.
  destruct (String.eqb_spec d "policy") as [->|]; [|discriminate].
  intros H. injection H as <- <-. reflexivity.
Qed.

Lemma decode_other_length (policy : string) :
  List.length (split underscore policy) <> 3 -> Codec.decode policy = None.
Proof.
  unfold Codec.decode.
  destruct (split underscore policy) as [|a [|b [|d [|e t]]]];
    cbn; congruence.
Qed.

(** X1.  The remote name built for a category and a name decodes back to
    them exactly when neither holds an underscore; with an underscore in
    either, the name built does not decode at all. *)
Theorem decode_encode (category stem : string) :
  Codec.decode (Codec.encode category stem) =
  if has_char underscore category || has_char underscore stem
  then None else Some (category, stem).
Proof.
  destruct (has_char underscore category) eqn:Hc;
    [|destruct (has_char underscore stem) eqn:Hs]; cbn [orb].
  - apply decode_other_length. unfold Codec.encode.
    change ("_" ++ stem ++ "_policy")
      with (String underscore (stem ++ String underscore "policy")).
    rewrite !split_append, !length_app.
    pose proof (split_has_sep _ _ Hc).
    pose proof (split_length_pos underscore stem). cbn. lia.
  - apply decode_other_length. unfold Codec.encode.
    change ("_" ++ stem ++ "_policy")
      with (String underscore (stem ++ String underscore "policy")).
    rewrite !split_append, !length_app.
    pose proof (split_has_sep _ _ Hs).
    pose proof (split_length_pos underscore category). cbn. lia.
  - unfold Codec.decode. rewrite (CodecFacts.encode_split _ _ Hc Hs).
    reflexivity.
Qed.

Lemma decode_inv (policy category stem : string) :
  Codec.decode policy = Some (category, stem) ->
  policy = Codec.encode category stem /\
  has_char underscore category = false /\
  has_char underscore stem = false.
Proof.
  intros H. apply decode_split in H.
  split.
  - rewrite <- (concat_split underscore policy), H. reflexivity.
  - pose proof (split_segments underscore policy) as F. rewrite H in F.
    inversion F as [|? ? Hc F']; subst. inversion F' as [|? ? Hs _]; subst.
    split; assumption.
Qed.

(** X2.  A remote name that decodes is the name built from the pair it
    decodes to, and neither part of the pair holds an underscore; so two
    remote names that decode to the same pair are the same name. *)
Theorem decode_sound (policy category stem : string) :
  Codec.decode policy = Some (category, stem) ->
  policy = Codec.encode category stem /\
  has_char underscore category = false /\
  has_char underscore stem = false.
Proof. exact (@decode_inv policy category stem). Qed.

Lemma decode_sound_witness :
  "obsolete_deploy_policy" = Codec.encode "obsolete" "deploy" /\
  has_char underscore "obsolete" = false /\
  has_char underscore "deploy" = false.
Proof.
  exact (decode_sound "obsolete_deploy_policy" eq_refl).
Defined.

End CodecMore.

(** ** Paths *)

Module OsPathFacts.
Import PyStr PyStrFacts SegmentFacts.

Lemma has_char_app ch (a b : string) :
  has_char ch (a ++ b) = has_char ch a || has_char ch b.
Proof.
  induction a as [|x a IH]; cbn; [reflexivity|].
  rewrite IH, orb_assoc. reflexivity.
Qed.

Lemma ends_with_sep_app (a b : string) :
  b <> "" -> OsPath.ends_with_sep (a ++ b) = OsPath.ends_with_sep b.
Proof.
  intros Hb. induction a as [|x a IH]; [reflexivity|].
  cbn [append OsPath.ends_with_sep]. rewrite IH.
  destruct (a ++ b) eqn:E; [|reflexivity].
  destruct a; cbn in E; [congruence | discriminate].
Qed.

Lemma ends_with_sep_no_sep (b : string) :
  has_char slash b = false -> OsPath.ends_with_sep b = false.
Proof.
  induction b as [|x b IH]; [reflexivity|].
  cbn. intros H. apply orb_false_iff in H as [Hx Hb].
  destruct b; [exact Hx | exact (IH Hb)].
Qed.

Lemma ends_with_sep_inv (a : string) :
  OsPath.ends_with_sep a = true -> exists a', a = a' ++ String slash "".
Proof.
  induction a as [|x a IH]; [discriminate|].
  cbn. destruct a as [|y a].
  - intros H. apply Ascii.eqb_eq in H. subst. exists "". reflexivity.
  - intros H. destruct (IH H) as [a' Ha']. exists (String x a').
    cbn. rewrite <- Ha'. reflexivity.
Qed.

Lemma starts_with_sep_no_sep (b : string) :
  has_char slash b = false -> OsPath.starts_with_sep b = false.
Proof.
  destruct b; [reflexivity|]. cbn. intros H.
  apply orb_false_iff in H as [Hx _]. exact Hx.
Qed.

(** The last segment of a directory joined with a plain name is the
    name, and the joined path does not end with a separator. *)
Lemma join_plain (a b : string) :
  b <> "" -> has_char slash b = false ->
  (exists pre, split slash (OsPath.join a b) = (pre ++ [b])%list) /\
  OsPath.ends_with_sep (OsPath.join a b) = false /\
  OsPath.join a b <> "".
Proof.
  intros Hb Hs. unfold OsPath.join.
  rewrite (starts_with_sep_no_sep _ Hs).
  destruct (String.eqb_spec a "") as [->|Ha]; cbn [orb].
  - cbn [append]. rewrite (split_no_sep _ _ Hs).
    split; [exists []; reflexivity|].
    split; [apply ends_with_sep_no_sep; exact Hs | exact Hb].
  - destruct (OsPath.ends_with_sep a) eqn:He.
    + destruct (ends_with_sep_inv _ He) as [a' ->].
      rewrite append_assoc. cbn [append].
      rewrite split_append, (split_no_sep _ _ Hs).
      split; [eexists; reflexivity|].
      change (String slash b) with (String slash "" ++ b).
      rewrite <- append_assoc, (ends_with_sep_app _ Hb).
      split; [apply ends_with_sep_no_sep; exact Hs|].
      destruct a'; discriminate.
    + change ("/" ++ b) with (String slash b).
      rewrite split_append, (split_no_sep _ _ Hs).
      split; [eexists; reflexivity|].
      change (String slash b) with (String slash "" ++ b).
      rewrite <- append_assoc, (ends_with_sep_app _ Hb).
      split; [apply ends_with_sep_no_sep; exact Hs|].
      destruct a; [congruence | discriminate].
Qed.

Lemma splitext_root_hcl (stem : string) :
  OsPath.all_dots stem = false ->
  OsPath.splitext_root (stem ++ ".hcl") = stem.
Proof.
  intros Hd. unfold OsPath.splitext_root.
  change (stem ++ ".hcl") with (stem ++ String dot "hcl").
  rewrite split_append. change (split dot "hcl") with ["hcl"].
  rewrite rev_app_distr. cbn [rev app].
  pose proof (split_nonempty dot stem) as Hne.
  destruct (rev (split dot stem)) as [|x r] eqn:Er.
  - apply (f_equal (@rev string)) in Er. rewrite rev_involutive in Er.
    cbn in Er. congruence.
  - rewrite <- Er, rev_involutive.
    change "." with (String dot ""). rewrite concat_split, Hd. reflexivity.
Qed.

End OsPathFacts.

(** ** More on policies *)

Module PoliciesMore.
Import Exec ExecFacts PyStr PyStrFacts SegmentFacts OsPathFacts.

Lemma pulled_path_segments (folder category stem : string) :
  category <> "" ->
  has_char slash category = false ->
  has_char slash stem = false ->
  exists pre,
    split slash (OsPath.join (OsPath.join folder category) (stem ++ ".hcl")) =
    (pre ++ [category; (stem ++ ".hcl")%string])%list.
Proof.
  intros Hne Hc Hs.
  destruct (join_plain folder Hne Hc) as ([pre Hpre] & Hend & Hdir).
  assert (Hfile : has_char slash (stem ++ ".hcl") = false).
  { rewrite has_char_app, Hs. reflexivity. }
  exists pre. unfold OsPath.join at 1.
  rewrite (starts_with_sep_no_sep _ Hfile), Hend.
  destruct (String.eqb_spec (OsPath.join folder category) "");
    [congruence|]. cbn [orb].
  change ("/" ++ stem ++ ".hcl") with (String slash (stem ++ ".hcl")).
  rewrite split_append, (split_no_sep _ _ Hfile), Hpre, <- app_assoc.
  reflexivity.
Qed.

Section WithEnv.
Variable W : Type.
Variable E : Env W.

(** X3.  Pull and push agree on names.  When a remote name decodes to a
    category that is not empty and a name that is not made of dots only,
    neither holding a slash, the file a pull writes for it is one a push
    reads back under the same remote name. *)
Theorem pushed_name_of_pulled_file
  (c : Client) (folder policy category stem : string) (w w' : W) :
  Codec.decode policy = Some (category, stem) ->
  category <> "" ->
  has_char slash category = false ->
  has_char slash stem = false ->
  OsPath.all_dots stem = false ->
  let file := OsPath.join (OsPath.join folder category) (stem ++ ".hcl") in
  In (OpenWrite file) (calls (Policies.pull_policy E c folder policy w)) /\
  Policies.name (Policies.local_policy_of E w' file) = policy.
Proof.
  intros Hd Hne Hc Hs Hdots file. split.
  - rewrite (PoliciesFacts.pull_policy_decoded E c folder policy w Hd).
    cbn [calls]. right. apply in_or_app. right. left. reflexivity.
  - destruct (@pulled_path_segments folder category stem Hne Hc Hs)
      as [pre Hpre].
    unfold Policies.local_policy_of, OsPath.parent_segment, OsPath.basename.
    fold file. unfold file at 1 2. rewrite Hpre.
    rewrite rev_app_distr. cbn [rev app Policies.name].
    change (pre ++ [category; (stem ++ ".hcl")%string])%list
      with (pre ++ [category] ++ [(stem ++ ".hcl")%string])%list.
    rewrite app_assoc, last_last, (splitext_root_hcl _ Hdots).
    symmetry. exact (proj1 (CodecMore.decode_inv _ Hd)).
Qed.

End WithEnv.
End PoliciesMore.

(** ** More on the execution monad *)

Module ExecMore.
Import Exec ExecFacts.

Section Facts.
Variable W : Type.

Lemma bind_calls_Forall {A B} (P : event -> Prop)
  (m : M W A) (f : A -> M W B) (w : W) :
  Forall P (calls (m w)) ->
  (forall a w', Forall P (calls (f a w'))) ->
  Forall P (calls (bind m f w)).
Proof.
  intros Hm Hf. unfold bind. destruct (result (m w)); cbn; [|exact Hm].
  apply Forall_app. split; [exact Hm | apply Hf].
Qed.

Lemma fold_each_calls_Forall {A S} (P : event -> Prop)
  (f : S -> A -> M W S) (l : list A) :
  (forall s x w, Forall P (calls (f s x w))) ->
  forall s w, Forall P (calls (fold_each l f s w)).
Proof.
  intros H. induction l as [|x l IH]; intros s w; [constructor|].
  cbn [fold_each]. apply bind_calls_Forall; [apply H | intros; apply IH].
Qed.

(** A loop of unguarded commands. *)
Lemma for_each_command_all {A} (ev : A -> event) (act : A -> W -> W)
  (l : list A) (w : W) :
  for_each l (fun x => command (ev x) (act x)) w =
  mkOut (Ok tt) (fold_left (fun w x => act x w) l w) (map ev l) [].
Proof.
  revert w. induction l as [|x l IH]; intros w; [reflexivity|].
  cbn [for_each fold_left map]. rewrite bind_command, IH. reflexivity.
Qed.

(** A loop can only raise what its body raises. *)
Lemma for_each_raises {A} (f : A -> M W unit) (l : list A) (w : W) (e : exn) :
  result (for_each l f w) = Raise e ->
  exists x w', In x l /\ result (f x w') = Raise e.
Proof.
  revert w. induction l as [|x l IH]; intros w; [discriminate|].
  cbn [for_each]. unfold bind.
  destruct (result (f x w)) as [[]|e'] eqn:Hx; cbn.
  - intros H. destruct (IH _ H) as (y & w' & Hy & Hr).
    exists y, w'. split; [right; exact Hy | exact Hr].
  - intros H. injection H as <-. exists x, w. split; [left; reflexivity|].
    exact Hx.
Qed.

End Facts.
End ExecMore.

(** ** What pull and push do to the two sides *)

Module PoliciesTraces.
Import Exec ExecFacts ExecMore PoliciesFacts.

Section WithEnv.
Variable W : Type.
Variable E : Env W.

(** X4.  A push over files that lie in a directory completes.  It
    lists the remote names, finds and reads the local files, deletes every
    remote name that no local policy carries, then sets every local
    policy under its name, whether the server has it or not; the server
    is left as the deletions and the settings leave it. *)
Theorem push_upserts_every_local_policy
  (c : Client) (folder : string) (w : W) :
  let distant := policy_list E c w in
  let pattern := OsPath.join folder "*/*.hcl" in
  let files := iglob E pattern w in
  let locals := map (Policies.local_policy_of E w) files in
  let unlisted :=
    filter (fun d => negb (PyStr.mem d (map Policies.name locals))) distant in
  Forall (fun f => OsPath.parent_segment f <> None) files ->
  Policies.policies_push E c folder w =
  mkOut (Ok tt)
        (fold_left (fun w' p => policy_set E c (Policies.name p)
                                           (Policies.content p) w')
                   locals
                   (fold_left (fun w' d => policy_delete E c d w') unlisted w))
        ([PolicyList c; Glob pattern] ++ map OpenRead files ++
         map (PolicyDelete c) unlisted ++
         map (fun p => PolicySet c (Policies.name p) (Policies.content p))
             locals)
        [].
Proof.
  intros distant pattern files locals unlisted Hfiles.
  unfold Policies.policies_push. do 2 exec_step.
  fold distant pattern files.
  rewrite (bind_eq _ (read_local_loop E Hfiles [] w)).
  cbn [result final calls logged app]. fold locals.
  rewrite (bind_eq _ (for_each_commands
             (fun d => negb (PyStr.mem d (map Policies.name locals)))
             (PolicyDelete c) (fun d => policy_delete E c d) distant w)).
  cbn [result final calls logged]. fold unlisted.
  rewrite (for_each_command_all
             (fun p => PolicySet c (Policies.name p) (Policies.content p))
             (fun p => policy_set E c (Policies.name p) (Policies.content p))).
  cbn [result final calls logged app].
  f_equal. f_equal. unfold unlisted. clear.
  generalize w. induction distant as [|d l IH]; intros w0; [reflexivity|].
  cbn [fold_left filter].
  destruct (negb (PyStr.mem d (map Policies.name locals)));
    cbn [fold_left]; apply IH.
Qed.

(** X5.  A pull from a server whose policy names all fail to decode
    changes nothing: it makes the listing call only, logs one warning per
    name and leaves the world as it was. *)
Theorem pull_of_foreign_names_only (c : Client) (folder : string) (w : W) :
  Forall (fun p => Codec.decode p = None) (policy_list E c w) ->
  Policies.policies_pull E c folder w =
  mkOut (Ok tt) w [PolicyList c]
        (map (fun p =>
                (WARNING,
                 "Policy " ++ p ++
                 " does not match policy name pattern and will not be pulled"
                )) (policy_list E c w)).
Proof.
  intros H. unfold Policies.policies_pull. exec_step.
  induction H as [|p l Hp _ IH]; [reflexivity|].
  cbn [for_each map].
  rewrite (bind_eq _ (pull_policy_foreign E c folder p w Hp)).
  cbn [app]. injection IH as Hr Hf Hc Hl.
  rewrite Hr, Hf, Hl. cbn [app]. do 2 f_equal.
  exact Hc.
Qed.

Lemma pull_policy_spares_server (c : Client) (folder policy : string) (w : W) :
  Forall (fun e => Effects.changes_server e = false)
         (calls (Policies.pull_policy E c folder policy w)).
Proof.
  destruct (Codec.decode policy) as [[category stem]|] eqn:D.
  - rewrite (pull_policy_decoded E c folder policy w D). cbn [calls].
    destruct (isdir E (OsPath.join folder category) w);
      repeat constructor.
  - rewrite (pull_policy_foreign E c folder policy w D). constructor.
Qed.

(** X6.  A pull never changes a server, and a push never changes the
    local files: no call of a pull sets or deletes a policy, and no call
    of a push creates a directory or opens or writes a file, whatever
    the server lists and the folder holds. *)
Theorem pull_and_push_are_one_way (c : Client) (folder : string) (w : W) :
  Forall (fun e => Effects.changes_server e = false)
         (calls (Policies.policies_pull E c folder w)) /\
  Forall (fun e => Effects.changes_files e = false)
         (calls (Policies.policies_push E c folder w)).
Proof.
  split.
  - unfold Policies.policies_pull. exec_step.
    constructor; [reflexivity|].
    apply for_each_calls_Forall. intros p w'.
    apply pull_policy_spares_server.
  - unfold Policies.policies_push. do 2 exec_step.
    constructor; [reflexivity|]. constructor; [reflexivity|].
    apply bind_calls_Forall.
    + apply fold_each_calls_Forall. intros acc f w'.
      unfold Policies.read_local_policy.
      destruct (OsPath.parent_segment f); cbn; repeat constructor.
    + intros locals w'. apply bind_calls_Forall.
      * apply for_each_calls_Forall. intros d w''.
        destruct (negb (PyStr.mem d (map Policies.name locals)));
          repeat constructor.
      * intros _ w''. apply for_each_calls_Forall. intros p w3.
        repeat constructor.
Qed.

End WithEnv.
End PoliciesTraces.

(** ** More on the auth push *)

Module AuthMore.
Import Exec ExecFacts ExecMore AuthPlan AuthFacts AuthConfiguration.

Section WithEnv.
Variable W : Type.
Variable E : Env W.
Variable digest : list (string * scalar) -> string.

Lemma configure_as_command (c : Client) (m : VAM.t) (w : W) :
  Auth.configure_auth_method E c m w =
  when (configurable m)
       (command (configuration_call c m)
                (auth_method_configuration E c (VAM.type m) (VAM.path m)
                   (match VAM.auth_config m with
                    | Some d => d
                    | None => []
                    end))) w.
Proof.
  unfold Auth.configure_auth_method, configurable, configuration_call.
  destruct (VAM.has_auth_config m); [|reflexivity].
  destruct (VAM.type m =? "ldap")%string; [reflexivity|].
  destruct (VAM.type m =? "approle")%string; reflexivity.
Qed.

Lemma configure_loop (c : Client) (l : list VAM.t) (w : W) :
  result (for_each l (Auth.configure_auth_method E c) w) = Ok tt /\
  calls (for_each l (Auth.configure_auth_method E c) w) =
  map (configuration_call c) (filter configurable l).
Proof.
  rewrite (for_each_ext _ _ l w
             (fun m _ w' => configure_as_command c m w')).
  rewrite for_each_commands. split; reflexivity.
Qed.

(** The tuning pass over declared mounts that give both lease
    settings. *)
Lemma tuning_pass (c : Client) (distant local : list VAM.t) (w : W) :
  Forall (fun l => has_key "default_lease_ttl" l /\
                   has_key "max_lease_ttl" l) local ->
  result (Auth.find_auth_methods_to_tune E digest c distant local w) = Ok tt /\
  calls (Auth.find_auth_methods_to_tune E digest c distant local w) =
  tune_calls digest c distant local.
Proof.
  intros Hkeys. unfold Auth.find_auth_methods_to_tune, tune_calls.
  apply for_each_static. intros d _ w1.
  apply for_each_static. intros l Hl w2.
  rewrite Forall_forall in Hkeys. destruct (Hkeys l Hl) as [H1 H2].
  destruct (VAM.eqb d l); cbn; [|split; reflexivity].
  destruct (Auth.hash_of digest d =? Auth.hash_of digest l)%string; cbn;
    [split; reflexivity|].
  rewrite (tune_out E c d w2 H1 H2). split; reflexivity.
Qed.

Lemma auth_push_result c config_dir w cf decls :
  load_yaml E (OsPath.join config_dir "auth-methods.yml") w = Loaded cf ->
  auth_methods cf = Some decls ->
  result (Auth.auth_push E digest c config_dir w) =
  match result (tuned E digest c w cf decls) with
  | Ok _ => Ok tt
  | Raise e => Raise e
  end.
Proof.
  intros Hload Hdecls. unfold Auth.auth_push.
  rewrite (bind_eq _ (read_configuration_out E config_dir w Hload)).
  rewrite (bind_eq _ (get_distant_out E c w)).
  rewrite (bind_eq _ (get_local_out cf Hdecls w)).
  fold (distant E c w). fold (disabled E c w cf decls).
  rewrite (bind_eq _ (disabled_out E c w cf decls)).
  fold (enabled E c w cf decls).
  rewrite (bind_eq _ (enabled_out E c w cf decls)).
  rewrite (bind_eq _ (get_distant_out E c (final (enabled E c w cf decls)))).
  fold (refreshed E c w cf decls).
  cbn [result final calls logged app].
  unfold bind. fold (tuned E digest c w cf decls).
  destruct (result (tuned E digest c w cf decls)); cbn [result];
    [|reflexivity].
  apply configure_loop.
Qed.

(** The calls of a push by kind, for a configuration that loads. *)
Lemma push_calls_by_kind (p : event -> bool) c config_dir w cf decls :
  load_yaml E (OsPath.join config_dir "auth-methods.yml") w = Loaded cf ->
  auth_methods cf = Some decls ->
  p (LoadYaml (OsPath.join config_dir "auth-methods.yml")) = false ->
  p (AuthList c) = false ->
  filter p (calls (Auth.auth_push E digest c config_dir w)) =
  (filter p (calls (disabled E c w cf decls)) ++
   filter p (calls (enabled E c w cf decls)) ++
   filter p (calls (tuned E digest c w cf decls)) ++
   filter p (match result (tuned E digest c w cf decls) with
             | Ok _ => calls (configured E digest c w cf decls)
             | Raise _ => []
             end))%list.
Proof.
  intros Hload Hdecls H1 H2.
  rewrite (auth_push_calls E digest c config_dir w Hload Hdecls).
  rewrite !filter_app. cbn [filter]. rewrite H1, H2. reflexivity.
Qed.

(** X7.  With a configuration that loads, a push enables exactly the
    declared mounts that the first listing does not hold, in the order of
    the declaration, each with the type, path and description declared;
    the deletion entry plays no part in it. *)
Theorem enable_is_unconditional c config_dir w cf decls :
  load_yaml E (OsPath.join config_dir "auth-methods.yml") w = Loaded cf ->
  auth_methods cf = Some decls ->
  filter is_enable (calls (Auth.auth_push E digest c config_dir w)) =
  map (enable_call c) (to_enable (local decls) (distant E c w)).
Proof.
  intros Hload Hdecls.
  rewrite (push_calls_by_kind is_enable c config_dir w Hload Hdecls
             eq_refl eq_refl).
  rewrite (filter_none is_enable is_disable
             (l := calls (disabled E c w cf decls)));
    [|intros []; cbn; congruence | apply disabled_calls_are_disables].
  rewrite (filter_none is_enable is_tune
             (l := calls (tuned E digest c w cf decls)));
    [|intros []; cbn; congruence | apply tuned_calls_are_tunes].
  rewrite (filter_none is_enable is_configuration
             (l := match result (tuned E digest c w cf decls) with
                   | Ok _ => calls (configured E digest c w cf decls)
                   | Raise _ => []
                   end));
    [|intros []; cbn; congruence
     | apply configured_calls_are_configurations].
  cbn [app]. rewrite app_nil_r, enabled_out_calls.
  apply filter_all, Forall_map, Forall_forall. reflexivity.
Qed.

(** X8.  With a configuration that loads and declared mounts that all
    give both lease settings, a push completes, and its last phase
    configures exactly the declared mounts that carry a non-empty
    [auth_config] and are of type [ldap] or [approle], in the order of the
    declaration; a mount without [auth_config], or of another type, gets
    no configuration call and raises no error. *)
Theorem configuration_is_by_type c config_dir w cf decls :
  load_yaml E (OsPath.join config_dir "auth-methods.yml") w = Loaded cf ->
  auth_methods cf = Some decls ->
  Forall (fun l => has_key "default_lease_ttl" l /\
                   has_key "max_lease_ttl" l) (local decls) ->
  result (Auth.auth_push E digest c config_dir w) = Ok tt /\
  filter is_configuration (calls (Auth.auth_push E digest c config_dir w)) =
  map (configuration_call c) (filter configurable (local decls)).
Proof.
  intros Hload Hdecls Hkeys.
  assert (Ht : result (tuned E digest c w cf decls) = Ok tt).
  { unfold tuned. apply tuning_pass. exact Hkeys. }
  split.
  - rewrite (auth_push_result c config_dir w Hload Hdecls), Ht. reflexivity.
  - rewrite (push_calls_by_kind is_configuration c config_dir w Hload Hdecls
               eq_refl eq_refl), Ht.
    rewrite (filter_none is_configuration is_disable
               (l := calls (disabled E c w cf decls)));
      [|intros []; cbn; congruence | apply disabled_calls_are_disables].
    rewrite (filter_none is_configuration is_enable
               (l := calls (enabled E c w cf decls)));
      [|intros []; cbn; congruence | apply enabled_calls_are_enables].
    rewrite (filter_none is_configuration is_tune
               (l := calls (tuned E digest c w cf decls)));
      [|intros []; cbn; congruence | apply tuned_calls_are_tunes].
    cbn [app]. unfold configured.
    rewrite (proj2 (configure_loop c (local decls) _)).
    apply filter_all, Forall_map, Forall_forall. reflexivity.
Qed.

(** X9.  The tuning pass fails only for want of a lease setting: when it
    raises, the error is the [KeyError] of [default_lease_ttl] or of
    [max_lease_ttl], and some listed mount equals a declared mount whose
    tuning hash differs and whose tuning lacks that key. *)
Theorem tuning_fails_only_on_missing_lease
  (c : Client) (distant local : list VAM.t) (w : W) (e : exn) :
  result (Auth.find_auth_methods_to_tune E digest c distant local w)
    = Raise e ->
  exists d l,
    In d distant /\ In l local /\ VAM.eqb d l = true /\
    Auth.hash_of digest d <> Auth.hash_of digest l /\
    ((e = KeyError "default_lease_ttl" /\
      Py.dict_get "default_lease_ttl" (VAM.tuning l) = None) \/
     (e = KeyError "max_lease_ttl" /\
      Py.dict_get "max_lease_ttl" (VAM.tuning l) = None)).
Proof.
  intros H. unfold Auth.find_auth_methods_to_tune in H.
  apply for_each_raises in H as (d & w1 & Hd & H).
  apply for_each_raises in H as (l & w2 & Hl & H).
  exists d, l. split; [exact Hd|]. split; [exact Hl|].
  destruct (VAM.eqb d l); [|discriminate]. split; [reflexivity|].
  cbn [when] in H.
  destruct (String.eqb_spec (Auth.hash_of digest d) (Auth.hash_of digest l))
    as [|Hne]; [discriminate|].
  split; [exact Hne|]. cbn [negb when] in H.
  unfold Auth.tune_auth_method, Auth.getitem in H.
  destruct (Py.dict_get "default_lease_ttl" (VAM.tuning l)).
  - destruct (Py.dict_get "max_lease_ttl" (VAM.tuning l)); [discriminate|].
    right. cbn in H. injection H as <-. split; reflexivity.
  - left. cbn in H. injection H as <-. split; reflexivity.
Qed.

(** X10.  A push stops on a configuration it cannot use, before any
    mutating call.  A missing file raises [FileNotFoundError] after the
    attempt to load it.  A malformed file is logged as critical, yet the
    push goes on to list the mounts of the server and only then raises
    [TypeError], on the empty configuration.  A file without an
    [auth-methods] entry raises [KeyError], likewise after the listing. *)
Theorem push_stops_on_unusable_configuration
  (c : Client) (config_dir : string) (w : W) :
  let file := OsPath.join config_dir "auth-methods.yml" in
  (load_yaml E file w = NoSuchFile ->
   Auth.auth_push E digest c config_dir w =
   mkOut (Raise (FileNotFoundError file)) w [LoadYaml file] []) /\
  (load_yaml E file w = Malformed ->
   Auth.auth_push E digest c config_dir w =
   mkOut (Raise (TypeError "'NoneType' object is not subscriptable")) w
         [LoadYaml file; AuthList c]
         [(CRITICAL, "Impossible to load conf file: ")]) /\
  (forall cf, load_yaml E file w = Loaded cf -> auth_methods cf = None ->
   Auth.auth_push E digest c config_dir w =
   mkOut (Raise (KeyError "auth-methods")) w [LoadYaml file; AuthList c] []).
Proof.
  intros file. unfold Auth.auth_push. repeat split.
  - intros Hload.
    assert (H : Auth.read_configuration E config_dir w =
                mkOut (Raise (FileNotFoundError file)) w [LoadYaml file] []).
    { unfold Auth.read_configuration, bind, query.
      cbn [result final calls logged]. fold file. rewrite Hload.
      reflexivity. }
    rewrite (bind_eq_raise _ H). reflexivity.
  - intros Hload.
    assert (H : Auth.read_configuration E config_dir w =
                mkOut (Ok None) w [LoadYaml file]
                      [(CRITICAL, "Impossible to load conf file: ")]).
    { unfold Auth.read_configuration, bind, query.
      cbn [result final calls logged]. fold file. rewrite Hload.
      reflexivity. }
    rewrite (bind_eq _ H), (bind_eq _ (get_distant_out E c w)).
    reflexivity.
  - intros cf Hload Hnone.
    rewrite (bind_eq _ (read_configuration_out E config_dir w Hload)).
    rewrite (bind_eq _ (get_distant_out E c w)).
    assert (H : Auth.get_local_auth_methods (Some cf) w =
                mkOut (Raise (KeyError "auth-methods")) w [] []).
    { unfold Auth.get_local_auth_methods. rewrite Hnone. reflexivity. }
    rewrite (bind_eq_raise _ H). reflexivity.
Qed.

Lemma for_each_noop {A} (f : A -> M W unit) (l : list A) (w : W) :
  (forall x, In x l -> f x w = mkOut (Ok tt) w [] []) ->
  for_each l f w = mkOut (Ok tt) w [] [].
Proof.
  induction l as [|x l IH]; intros H; [reflexivity|].
  cbn [for_each]. rewrite (bind_eq _ (H x (or_introl eq_refl))).
  rewrite IH; [reflexivity|]. intros y Hy. apply H. right. exact Hy.
Qed.

Lemma guarded_fold_noop {A} (p : A -> bool) (act : A -> W -> W)
  (l : list A) (w : W) :
  filter p l = [] ->
  fold_left (fun w x => if p x then act x w else w) l w = w.
Proof.
  induction l as [|x l IH]; [reflexivity|]. cbn.
  destruct (p x); [discriminate|]. exact IH.
Qed.

(** X11.  A push onto a server that already matches the declaration
    changes no mount.  When every declared mount is listed, every listed
    mount is declared (or deletion is off), and the tuning hashes of
    equal mounts agree, the push completes and calls neither disable,
    enable nor tune: it loads the file, takes the two listings and makes
    the method specific configuration calls. *)
Theorem push_onto_matching_server_changes_no_mount
  c config_dir w cf decls :
  load_yaml E (OsPath.join config_dir "auth-methods.yml") w = Loaded cf ->
  auth_methods cf = Some decls ->
  to_enable (local decls) (distant E c w) = [] ->
  (Auth.deletion_enabled cf = true ->
   to_disable (distant E c w) (local decls) = []) ->
  (forall d l, In d (distant E c w) -> In l (local decls) ->
               VAM.eqb d l = true ->
               Auth.hash_of digest d = Auth.hash_of digest l) ->
  result (Auth.auth_push E digest c config_dir w) = Ok tt /\
  calls (Auth.auth_push E digest c config_dir w) =
  ([LoadYaml (OsPath.join config_dir "auth-methods.yml");
    AuthList c; AuthList c] ++
   map (configuration_call c) (filter configurable (local decls)))%list.
Proof.
  intros Hload Hdecls Hen Hdis Hhash.
  assert (Hd : disabled E c w cf decls = mkOut (Ok tt) w [] []).
  { unfold disabled. destruct (Auth.deletion_enabled cf); [|reflexivity].
    cbn [when]. rewrite disable_out.
    fold (to_disable (distant E c w) (local decls)).
    rewrite (Hdis eq_refl).
    rewrite guarded_fold_noop; [reflexivity | exact (Hdis eq_refl)]. }
  assert (He : enabled E c w cf decls = mkOut (Ok tt) w [] []).
  { unfold enabled. rewrite Hd. cbn [final]. rewrite enable_out.
    fold (to_enable (local decls) (distant E c w)). rewrite Hen.
    rewrite guarded_fold_noop; [reflexivity | exact Hen]. }
  assert (Ht : tuned E digest c w cf decls = mkOut (Ok tt) w [] []).
  { unfold tuned, refreshed. rewrite He. cbn [final].
    fold (distant E c w). unfold Auth.find_auth_methods_to_tune.
    apply for_each_noop. intros d Hin.
    apply for_each_noop. intros l Hl.
    destruct (VAM.eqb d l) eqn:Heq; [|reflexivity]. cbn [when].
    rewrite (Hhash d l Hin Hl Heq), String.eqb_refl. reflexivity. }
  split.
  - rewrite (auth_push_result c config_dir w Hload Hdecls), Ht. reflexivity.
  - rewrite (auth_push_calls E digest c config_dir w Hload Hdecls).
    rewrite Ht, Hd, He. cbn [result calls app]. unfold configured.
    rewrite Ht. cbn [final].
    rewrite (proj2 (configure_loop c (local decls) w)). reflexivity.
Qed.

(** X12.  With a command and the three required arguments given, [run]
    builds one client from the address and the two flags, authenticates
    it, and then pushes with that client from the configuration
    directory: its calls are these two followed by those of the push, it
    returns [None] when the push completes and raises what the push
    raises. *)
Theorem run_pushes_with_one_client (k : Auth.KwArgs) (w : W)
  (config_dir : string) :
  Py.truthy (Auth.push k) = true ->
  Utils.keys_exists_in_dict (Auth.asdict k) Utils.required_args = [] ->
  Auth.vault_config k = PStr config_dir ->
  let c := mkClient (Some (Auth.vault_addr k)) (Auth.dry_run k)
                    (Auth.skip_tls k) in
  let pushed := Auth.auth_push E digest c config_dir
                               (authenticate E c None w) in
  result (Auth.run E digest k w) =
    match result pushed with
    | Ok _ => Ok RetNone
    | Raise e => Raise e
    end /\
  calls (Auth.run E digest k w) =
    NewClient c :: Authenticate c None :: calls pushed.
Proof.
  intros Hpush Hargs Hdir c pushed.
  assert (Hcheck : Auth.check_args_integrity k w = mkOut (Ok true) w [] []).
  { unfold Auth.check_args_integrity. destruct (Auth.push k) as [|[]|];
      try discriminate; reflexivity. }
  unfold Auth.run. rewrite (bind_eq _ Hcheck). cbn [negb].
  rewrite Hargs. cbn [List.length Nat.eqb negb]. fold c.
  do 2 exec_step. rewrite Hpush, Hdir. cbn [Auth.as_str].
  exec_step. unfold bind. cbn [ret]. fold pushed.
  destruct (result pushed); cbn; rewrite ?app_nil_r; split; reflexivity.
Qed.

End WithEnv.
End AuthMore.

(** ** Sorted items *)

Module SortFacts.

Lemma ascii_compare_refl (a : ascii) : Ascii.compare a a = Eq.
Proof. unfold Ascii.compare. apply N.compare_refl. Qed.

Lemma ascii_le_trans (a b c : ascii) :
  Ascii.compare a b <> Gt -> Ascii.compare b c <> Gt ->
  Ascii.compare a c <> Gt.
Proof.
  unfold Ascii.compare. rewrite !N.compare_le_iff. apply N.le_trans.
Qed.

Lemma ascii_lt_le_trans (a b c : ascii) :
  Ascii.compare a b = Lt -> Ascii.compare b c <> Gt ->
  Ascii.compare a c = Lt.
Proof.
  unfold Ascii.compare. rewrite !N.compare_lt_iff, N.compare_le_iff.
  apply N.lt_le_trans.
Qed.

Lemma ascii_le_lt_trans (a b c : ascii) :
  Ascii.compare a b <> Gt -> Ascii.compare b c = Lt ->
  Ascii.compare a c = Lt.
Proof.
  unfold Ascii.compare. rewrite !N.compare_lt_iff, N.compare_le_iff.
  apply N.le_lt_trans.
Qed.

Lemma compare_le_trans (a : string) : forall b c,
  String.compare a b <> Gt -> String.compare b c <> Gt ->
  String.compare a c <> Gt.
Proof.
  induction a as [|x a IH]; intros [|y b] [|z c]; cbn; try congruence.
  destruct (Ascii.compare x y) eqn:Hxy; [| |congruence];
    destruct (Ascii.compare y z) eqn:Hyz; try congruence; intros H1 H2.
  - apply Ascii.compare_eq_iff in Hxy, Hyz. subst.
    rewrite ascii_compare_refl. exact (IH _ _ H1 H2).
  - apply Ascii.compare_eq_iff in Hxy. subst. rewrite Hyz. congruence.
  - apply Ascii.compare_eq_iff in Hyz. subst. rewrite Hxy. congruence.
  - rewrite (ascii_lt_le_trans x y z Hxy); [congruence|]. congruence.
Qed.

Lemma leb_trans (a b c : string) :
  String.leb a b = true -> String.leb b c = true -> String.leb a c = true.
Proof.
  unfold String.leb. intros H1 H2.
  assert (H : String.compare a c <> Gt).
  { apply (compare_le_trans a b c).
    - destruct (String.compare a b); congruence.
    - destruct (String.compare b c); congruence. }
  destruct (String.compare a c); congruence.
Qed.

Section Items.
Variable V : Type.
Implicit Types (a b : string * V) (l d : list (string * V)).

(** Two insertions of items with different keys can be swapped. *)
Lemma insert_item_comm a b l :
  fst a <> fst b ->
  Py.insert_item a (Py.insert_item b l) =
  Py.insert_item b (Py.insert_item a l).
Proof.
  intros Hab.
  assert (Hcases : (String.leb (fst a) (fst b) = true /\
                    String.leb (fst b) (fst a) = false) \/
                   (String.leb (fst a) (fst b) = false /\
                    String.leb (fst b) (fst a) = true)).
  { destruct (String.leb (fst a) (fst b)) eqn:H1;
      destruct (String.leb (fst b) (fst a)) eqn:H2; auto.
    - exfalso. exact (Hab (String.leb_antisym _ _ H1 H2)).
    - destruct (String.leb_total (fst a) (fst b)); congruence. }
  induction l as [|h t IH].
  - cbn. destruct Hcases as [[-> ->]|[-> ->]]; reflexivity.
  - cbn [Py.insert_item].
    destruct (String.leb (fst a) (fst h)) eqn:Ha;
      destruct (String.leb (fst b) (fst h)) eqn:Hb; cbn [Py.insert_item].
    + destruct Hcases as [[-> ->]|[-> ->]]; rewrite ?Ha, ?Hb; reflexivity.
    + rewrite Ha, Hb.
      destruct (String.leb (fst b) (fst a)) eqn:Hba; [|reflexivity].
      rewrite (leb_trans _ _ _ Hba Ha) in Hb. discriminate.
    + rewrite Ha, Hb.
      destruct (String.leb (fst a) (fst b)) eqn:Hab'; [|reflexivity].
      rewrite (leb_trans _ _ _ Hab' Hb) in Ha. discriminate.
    + rewrite Ha, Hb, IH. reflexivity.
Qed.

Lemma sorted_items_cons a d :
  Py.sorted_items (a :: d) = Py.insert_item a (Py.sorted_items d).
Proof. reflexivity. Qed.

Lemma sorted_items_perm d d' :
  NoDup (map fst d) -> Permutation d d' ->
  Py.sorted_items d = Py.sorted_items d'.
Proof.
  intros Hnd Hp. induction Hp as [|x l l' Hp IH|x y l|l l' l'' H1 IH1 H2 IH2].
  - reflexivity.
  - rewrite !sorted_items_cons, IH; [reflexivity|].
    inversion Hnd; assumption.
  - rewrite !sorted_items_cons. apply insert_item_comm. cbn in Hnd.
    inversion Hnd as [|? ? Hy _]; subst. intros E. apply Hy. left.
    symmetry. exact E.
  - rewrite IH1 by exact Hnd. apply IH2.
    apply (Permutation_NoDup (Permutation_map fst H1) Hnd).
Qed.

Lemma insert_item_get (k : string) a l :
  ~ In (fst a) (map fst l) ->
  Py.dict_get k (Py.insert_item a l) =
  if String.eqb k (fst a) then Some (snd a) else Py.dict_get k l.
Proof.
  destruct a as [ka va]. cbn [fst snd]. induction l as [|[kh vh] t IH]; intros Hn.
  - reflexivity.
  - cbn [Py.insert_item fst]. cbn in Hn.
    destruct (String.leb ka kh); [reflexivity|].
    cbn [Py.dict_get]. rewrite IH by tauto.
    destruct (String.eqb_spec k kh) as [->|]; [|reflexivity].
    destruct (String.eqb_spec kh ka) as [->|]; [tauto | reflexivity].
Qed.

Lemma insert_item_keys a l :
  Permutation (map fst (Py.insert_item a l)) (fst a :: map fst l).
Proof.
  induction l as [|h t IH]; [reflexivity|]. cbn [Py.insert_item].
  destruct (String.leb (fst a) (fst h)); [reflexivity|].
  cbn [map]. rewrite IH. apply perm_swap.
Qed.

Lemma sorted_items_keys d :
  Permutation (map fst (Py.sorted_items d)) (map fst d).
Proof.
  induction d as [|a d IH]; [reflexivity|].
  rewrite sorted_items_cons, insert_item_keys, IH. reflexivity.
Qed.

Lemma sorted_items_get (k : string) d :
  NoDup (map fst d) ->
  Py.dict_get k (Py.sorted_items d) = Py.dict_get k d.
Proof.
  induction d as [|[ka va] d IH]; intros Hnd; [reflexivity|].
  cbn in Hnd. inversion Hnd as [|? ? Hka Hd]; subst.
  rewrite sorted_items_cons, insert_item_get.
  - cbn [fst snd Py.dict_get]. rewrite (IH Hd). reflexivity.
  - cbn [fst]. intros Hin. apply Hka.
    apply (Permutation_in _ (sorted_items_keys d) Hin).
Qed.

End Items.
End SortFacts.

(** ** The objects built for mounts *)

Module AuthObjects.
Import SortFacts.
Module VAM := VaultAuthMethod.

(** X13.  The order in which a mapping gives its tuning keys is
    immaterial.  Two declarations, or two entries of a listing, that
    differ only in the order of their (distinct) tuning keys yield the
    same object, hence the same tuning hash under any digest. *)
Theorem tuning_order_is_immaterial
  (ty p description : string) (t t' : Py.dict scalar)
  (cfg : option (Py.dict scalar)) :
  NoDup (map fst t) -> Permutation t t' ->
  Auth.of_decl (mkAuthDecl ty p description t cfg) =
  Auth.of_decl (mkAuthDecl ty p description t' cfg) /\
  (forall key listed_path,
      Auth.of_raw (key, mkRawAuth ty listed_path description t) =
      Auth.of_raw (key, mkRawAuth ty listed_path description t')) /\
  (forall digest,
      Auth.hash_of digest (Auth.of_decl (mkAuthDecl ty p description t cfg)) =
      Auth.hash_of digest
        (Auth.of_decl (mkAuthDecl ty p description t' cfg))).
Proof.
  intros Hnd Hp. unfold Auth.of_decl, Auth.of_raw, Auth.hash_of,
    VAM.get_tuning_hash.
  cbn [d_type d_path d_description d_tuning d_auth_config r_type r_path
       r_description r_config fst snd VAM.tuning].
  rewrite (sorted_items_perm Hnd Hp). repeat split.
Qed.

(** X14.  Sorting keeps the settings.  The object built for a
    declaration whose tuning keys are distinct maps every key to the value
    the declaration gives it; so the lease settings a tune call carries
    are the declared ones. *)
Theorem sorting_keeps_the_settings (d : AuthDecl) (k : string) :
  NoDup (map fst (d_tuning d)) ->
  Py.dict_get k (VAM.tuning (Auth.of_decl d)) = Py.dict_get k (d_tuning d) /\
  AuthPlan.tuning_value k (Auth.of_decl d) =
  match Py.dict_get k (d_tuning d) with
  | Some v => v
  | None => SNull
  end.
Proof.
  intros Hnd. unfold AuthPlan.tuning_value, Auth.of_decl. cbn [VAM.tuning].
  rewrite (sorted_items_get k (d_tuning d) Hnd). split; reflexivity.
Qed.

End AuthObjects.

(** ** More on the KV export *)

Module KVMore.
Import Exec ExecFacts DictFacts KVFacts.

Section WithEnv.
Variable W : Type.
Variable E : Env W.
Variable environ : Py.dict string.

(** X15.  With the environment complete but no path to export, [run]
    logs an error, prints the usage text and returns [False]: no client
    is built and the world is as it was. *)
Theorem run_without_export (a : KV.Args) (w : W) :
  forallb (KV.in_environ environ) KV.needed_env_vars = true ->
  KV.no_export a = true ->
  KV.run E environ a w =
  mkOut (Ok RetFalse) w [PrintHelp]
        [(ERROR, "Only one parameter should be specified")].
Proof.
  intros Henv Hno. unfold KV.run.
  rewrite (bind_eq _ (check_env_vars_ok environ w Henv)). cbn [negb].
  rewrite Hno. reflexivity.
Qed.

Lemma filled_get_notin {V} (f : string -> V) (l : list string) :
  forall (d : Py.dict V) (k : string),
  ~ In k l -> Py.dict_get k (Py.filled f l d) = Py.dict_get k d.
Proof.
  induction l as [|x l IH]; intros d k Hk; [reflexivity|].
  change (Py.filled f (x :: l) d)
    with (Py.filled f l (Py.dict_set x (f x) d)).
  rewrite IH by (intros H; apply Hk; right; exact H).
  rewrite get_set.
  destruct (String.eqb_spec k x) as [->|]; [|reflexivity].
  exfalso. apply Hk. left. reflexivity.
Qed.

Lemma filled_get_in {V} (f : string -> V) (l : list string) :
  forall (d : Py.dict V) (k : string),
  In k l -> Py.dict_get k (Py.filled f l d) = Some (f k).
Proof.
  induction l as [|x l IH]; intros d k; [intros []|].
  change (Py.filled f (x :: l) d)
    with (Py.filled f l (Py.dict_set x (f x) d)).
  intros Hk. destruct (in_dec string_dec k l) as [Hin|Hnot];
    [apply IH; exact Hin|].
  destruct Hk as [->|Hk]; [|contradiction].
  rewrite (filled_get_notin f l _ k Hnot), get_set, String.eqb_refl.
  reflexivity.
Qed.

(** X16.  What the export reads it can look up.  With the environment
    complete and a path to export, [read_from_vault] returns a dict that
    holds, for every listed leaf, the document read for it from the
    source, and holds no key that is not a listed leaf. *)
Theorem read_from_vault_holds_every_leaf
  (a : KV.Args) (w : W) (root : string) (rest : list string) :
  forallb (KV.in_environ environ) KV.needed_env_vars = true ->
  KV.export a = Some (root :: rest) ->
  let src := KV.source_client a in
  let w1 := authenticate E src None w in
  let leaves := get_secrets_tree E src root w1 in
  exists exported : Py.dict secret,
    result (KV.read_from_vault E environ a w) = Ok exported /\
    (forall p, In p leaves ->
               Py.dict_get p exported = Some (read_secret E src p w1)) /\
    (forall p, In p (Py.dict_keys exported) -> In p leaves) /\
    NoDup (Py.dict_keys exported).
Proof.
  intros Henv Hexp src w1 leaves.
  exists (Py.filled (fun p => read_secret E src p w1) leaves []).
  rewrite (read_from_vault_out E environ a w Henv Hexp).
  split; [reflexivity|]. split; [|split].
  - intros p Hp.
    apply (filled_get_in (fun q => read_secret E src q w1) leaves [] p Hp).
  - intros p Hp. apply filled_keys_In in Hp as [[]|Hp]. exact Hp.
  - apply filled_keys_NoDup. constructor.
Qed.

End WithEnv.
End KVMore.

(** ** The further properties on concrete worlds *)

Module MoreScenarios.
Import Exec Worlds MoreWorlds.
Module VAM := VaultAuthMethod.

Lemma pushed_name_of_pulled_file_witness :
  In (OpenWrite "conf/policies/team/read.hcl")
     (calls (Policies.pull_policy Sim.env client "conf/policies"
                                  "team_read_policy" policy_world)) /\
  Policies.name
    (Policies.local_policy_of Sim.env policy_world
                              "conf/policies/team/read.hcl") =
  "team_read_policy".
Proof.
  refine (PoliciesMore.pushed_name_of_pulled_file Sim.env client
            "conf/policies" "team_read_policy"
            (category := "team") (stem := "read") policy_world policy_world
            eq_refl _ eq_refl eq_refl eq_refl).
  discriminate.
Defined.

Lemma push_upserts_every_local_policy_witness :
  calls (Policies.policies_push Sim.env client "conf/policies" policy_world)
  = [PolicyList client; Glob "conf/policies/*/*.hcl";
     OpenRead "conf/policies/team/read.hcl";
     OpenRead "conf/policies/team/write.hcl";
     PolicyDelete client "obsolete_deploy_policy";
     PolicyDelete client "custom_unmanaged";
     PolicySet client "team_read_policy" "path r1";
     PolicySet client "team_write_policy" "path w1"].
Proof.
  rewrite (PoliciesTraces.push_upserts_every_local_policy Sim.env client
             "conf/policies" policy_world).
  - reflexivity.
  - repeat constructor; discriminate.
Defined.

Lemma pull_of_foreign_names_only_witness :
  Policies.policies_pull Sim.env client "conf/policies" foreign_world =
  mkOut (Ok tt) foreign_world [PolicyList client]
    [(WARNING,
      "Policy default does not match policy name pattern and will not be pulled");
     (WARNING,
      "Policy root does not match policy name pattern and will not be pulled");
     (WARNING,
      "Policy a_b_c_d does not match policy name pattern and will not be pulled")].
Proof.
  refine (PoliciesTraces.pull_of_foreign_names_only Sim.env client
            "conf/policies" foreign_world _).
  repeat constructor.
Defined.

Lemma enable_is_unconditional_witness :
  filter AuthPlan.is_enable
         (calls (Auth.auth_push Sim.env Sim.digest client "conf" ldap_world))
  = [AuthEnable client "ldap" "corp" "corporate directory"].
Proof.
  exact (AuthMore.enable_is_unconditional Sim.env Sim.digest client "conf"
           ldap_world (cf := mkConf (Some declared_with_ldap) None)
           (decls := declared_with_ldap) eq_refl eq_refl).
Defined.

Lemma configuration_is_by_type_witness :
  result (Auth.auth_push Sim.env Sim.digest client "conf" ldap_world)
    = Ok tt /\
  filter AuthPlan.is_configuration
         (calls (Auth.auth_push Sim.env Sim.digest client "conf" ldap_world))
  = [AuthMethodConfiguration client "ldap" "corp"
       [("url", SStr "ldaps://ldap.example")]].
Proof.
  refine (AuthMore.configuration_is_by_type Sim.env Sim.digest client "conf"
            ldap_world (cf := mkConf (Some declared_with_ldap) None)
            (decls := declared_with_ldap) eq_refl eq_refl _).
  repeat constructor; vm_compute; discriminate.
Defined.

Lemma tuning_fails_only_on_missing_lease_witness :
  exists d l,
    In d (map Auth.of_raw (Sim.mounts (auth_world None))) /\
    In l (map Auth.of_decl declared_short) /\
    VAM.eqb d l = true /\
    Auth.hash_of Sim.digest d <> Auth.hash_of Sim.digest l /\
    ((KeyError "max_lease_ttl" = KeyError "default_lease_ttl" /\
      Py.dict_get "default_lease_ttl" (VAM.tuning l) = None) \/
     (KeyError "max_lease_ttl" = KeyError "max_lease_ttl" /\
      Py.dict_get "max_lease_ttl" (VAM.tuning l) = None)).
Proof.
  exact (AuthMore.tuning_fails_only_on_missing_lease Sim.env Sim.digest
           client (map Auth.of_raw (Sim.mounts (auth_world None)))
           (map Auth.of_decl declared_short) (auth_world None)
           (e := KeyError "max_lease_ttl") eq_refl).
Defined.

Lemma push_stops_on_unusable_configuration_witness :
  Auth.auth_push Sim.env Sim.digest client "conf" policy_world =
  mkOut (Raise (FileNotFoundError "conf/auth-methods.yml")) policy_world
        [LoadYaml "conf/auth-methods.yml"] [].
Proof.
  exact (proj1 (AuthMore.push_stops_on_unusable_configuration Sim.env
                  Sim.digest client "conf" policy_world) eq_refl).
Defined.

Lemma push_onto_matching_server_changes_no_mount_witness :
  result (Auth.auth_push Sim.env Sim.digest client "conf" matching_world)
    = Ok tt /\
  calls (Auth.auth_push Sim.env Sim.digest client "conf" matching_world)
    = [LoadYaml "conf/auth-methods.yml"; AuthList client; AuthList client].
Proof.
  refine (AuthMore.push_onto_matching_server_changes_no_mount Sim.env
            Sim.digest client "conf" matching_world
            (cf := mkConf (Some declared) None) (decls := declared)
            eq_refl eq_refl eq_refl _ _).
  - discriminate.
  - intros d l [<-|[]] [<-|[]] _. reflexivity.
Defined.

Lemma run_pushes_with_one_client_witness :
  calls (Auth.run Sim.env Sim.digest push_args matching_world) =
  [NewClient client; Authenticate client None;
   LoadYaml "conf/auth-methods.yml"; AuthList client; AuthList client].
Proof.
  exact (proj2 (AuthMore.run_pushes_with_one_client Sim.env Sim.digest
                  push_args matching_world (config_dir := "conf")
                  eq_refl eq_refl eq_refl)).
Defined.

Lemma tuning_order_is_immaterial_witness :
  Auth.of_decl
    (mkAuthDecl "approle" "apps" "applications"
       [("max_lease_ttl", SInt 7200); ("default_lease_ttl", SInt 3600)] None)
  = Auth.of_decl
      (mkAuthDecl "approle" "apps" "applications"
         [("default_lease_ttl", SInt 3600); ("max_lease_ttl", SInt 7200)]
         None).
Proof.
  refine (proj1 (AuthObjects.tuning_order_is_immaterial
                   "approle" "apps" "applications"
                   (t := [("max_lease_ttl", SInt 7200);
                          ("default_lease_ttl", SInt 3600)])
                   (t' := [("default_lease_ttl", SInt 3600);
                           ("max_lease_ttl", SInt 7200)]) None _ _)).
  - repeat constructor; cbn; intuition discriminate.
  - apply perm_swap.
Defined.

Lemma sorting_keeps_the_settings_witness :
  AuthPlan.tuning_value "default_lease_ttl"
    (Auth.of_decl
       (mkAuthDecl "approle" "apps" "applications"
          [("max_lease_ttl", SInt 7200); ("default_lease_ttl", SInt 3600)]
          None))
  = SInt 3600.
Proof.
  refine (proj2 (AuthObjects.sorting_keeps_the_settings
                   (mkAuthDecl "approle" "apps" "applications"
                      [("max_lease_ttl", SInt 7200);
                       ("default_lease_ttl", SInt 3600)] None)
                   "default_lease_ttl" _)).
  repeat constructor; cbn; intuition discriminate.
Defined.

Lemma run_without_export_witness :
  KV.run Sim.env environ kv_no_export kv_world =
  mkOut (Ok RetFalse) kv_world [PrintHelp]
        [(ERROR, "Only one parameter should be specified")].
Proof.
  exact (KVMore.run_without_export Sim.env environ kv_no_export kv_world
           eq_refl eq_refl).
Defined.

Lemma read_from_vault_holds_every_leaf_witness :
  exists exported : Py.dict secret,
    result (KV.read_from_vault Sim.env environ kv_args kv_world)
      = Ok exported /\
    Py.dict_get "secret/app/api" exported = Some [("key", "abc")].
Proof.
  destruct (KVMore.read_from_vault_holds_every_leaf Sim.env environ kv_args
              kv_world (root := "secret/app") (rest := []) eq_refl eq_refl)
    as (exported & Hr & Hget & _).
  exists exported. split; [exact Hr|].
  apply (Hget "secret/app/api"). right. left. reflexivity.
Defined.

End MoreScenarios.
